(** * Contexify: a shallow embedding of the context-menu widget

    The development follows the TypeScript sources: [utils.ts]
    ([getMousePosition], [getPredicateValue]), the [Menu] component
    (state reducer, [checkBoundaries], [show], [hide], the keyboard
    handler and the window listeners), the [Item] and [Submenu]
    components and the constants ([EVENT], [hideOnEvents]).

    Pixel quantities are integers; a JavaScript number is an integer or
    [NaN], and a property that may be missing reads as [undefined].
    JavaScript computes on binary64 numbers: [checkBoundaries64] rounds
    every sum and difference as a double does, and [checkBoundaries],
    which the state machine uses, computes on the integers themselves;
    the two agree on pixel values up to 2^51. *)

From stdpp Require Import base decidable option list strings gmap fin_maps.
From Stdlib Require Import ZArith Lia.
From Stdlib Require PrimFloat Uint63.

#[local] Set Warnings "-clear-no-such-hyp".

Local Open Scope string_scope.
Local Open Scope Z_scope.

(** ** JavaScript numbers as the code uses them *)

Inductive jsnum : Type :=
  | JUndefined
  | JNaN
  | JNum (z : Z).

Global Instance jsnum_eq_dec : EqDecision jsnum.
Proof. solve_decision. Defined.

(** [ToNumber]: [undefined] becomes [NaN]. *)
Definition to_number (v : jsnum) : jsnum :=
  match v with
  | JUndefined => JNaN
  | _ => v
  end.

(** [a + b] on numbers. *)
Definition jadd (a b : jsnum) : jsnum :=
  match to_number a, to_number b with
  | JNum p, JNum q => JNum (p + q)
  | _, _ => JNaN
  end.

(** [a - b]. *)
Definition jsub (a b : jsnum) : jsnum :=
  match to_number a, to_number b with
  | JNum p, JNum q => JNum (p - q)
  | _, _ => JNaN
  end.

(** [a > b]: false as soon as one side is [NaN]. *)
Definition jgt (a b : jsnum) : bool :=
  match to_number a, to_number b with
  | JNum p, JNum q => bool_decide (q < p)
  | _, _ => false
  end.

(** [a < b]. *)
Definition jlt (a b : jsnum) : bool :=
  match to_number a, to_number b with
  | JNum p, JNum q => bool_decide (p < q)
  | _, _ => false
  end.

(** [a === b] on numbers: [NaN] differs from everything. *)
Definition jstrict_eq (a b : jsnum) : bool :=
  match a, b with
  | JNum p, JNum q => bool_decide (p = q)
  | JUndefined, JUndefined => true
  | _, _ => false
  end.

(** [ToBoolean]: [undefined], [NaN] and [0] are falsy. *)
Definition truthy (v : jsnum) : bool :=
  match v with
  | JNum z => negb (bool_decide (z = 0))
  | _ => false
  end.

(** ** Binary64 arithmetic on integer values

    A JavaScript number is an IEEE 754 binary64 value: a sum or a
    difference of two integers is exact while it stays below 2^53 in
    absolute value, and is otherwise rounded to 53 significant bits,
    ties to even.  [roundDouble z] is the double nearest to the
    integer [z] (itself an integer; the overflow to [Infinity] beyond
    2^1024 is left out). *)
Definition roundDouble (z : Z) : Z :=
  let a := Z.abs z in
  let e := Z.max 0 (Z.log2 a - 52) in
  let q := a / 2 ^ e in
  let r := a mod 2 ^ e in
  let q' := if (2 ^ e <? 2 * r) || ((2 * r =? 2 ^ e) && Z.odd q) then q + 1 else q in
  Z.sgn z * (q' * 2 ^ e).

(** [a + b] and [a - b] as computed on doubles that hold integers. *)
Definition jadd64 (a b : jsnum) : jsnum :=
  match to_number a, to_number b with
  | JNum p, JNum q => JNum (roundDouble (p + q))
  | _, _ => JNaN
  end.

Definition jsub64 (a b : jsnum) : jsnum :=
  match to_number a, to_number b with
  | JNum p, JNum q => JNum (roundDouble (p - q))
  | _, _ => JNaN
  end.

(** Pixel values on which the arithmetic of [checkBoundaries] is
    exact: integers up to 2^51 in absolute value. *)
Definition safePixel (z : Z) : Prop := - 2 ^ 51 ≤ z ≤ 2 ^ 51.

Definition safeCoordinate (v : jsnum) : Prop :=
  match v with
  | JNum z => safePixel z
  | _ => True
  end.

(** The kernel's binary64 numbers, to run the same operations on
    values that are not integers and to compare [roundDouble] with the
    hardware rounding: [toBinary64 z] converts an integer below 2^63 in
    absolute value, rounding to nearest. *)
Definition toBinary64 (z : Z) : PrimFloat.float :=
  if z <? 0 then PrimFloat.opp (PrimFloat.of_uint63 (Uint63.of_Z (- z)))
  else PrimFloat.of_uint63 (Uint63.of_Z z).

(** One axis of [checkBoundaries] on binary64 numbers:
    [if (x + size > limit) x -= x + size - limit]. *)
Definition clampAxisBinary64 (x size limit : PrimFloat.float) : PrimFloat.float :=
  if PrimFloat.ltb limit (PrimFloat.add x size)
  then PrimFloat.sub x (PrimFloat.sub (PrimFloat.add x size) limit)
  else x.

(** ** Results of calls that may throw *)

Inductive JsError : Type :=
  | TypeError (msg : string).

Inductive result (A : Type) : Type :=
  | Ok (a : A)
  | Throw (err : JsError).

Arguments Ok {A} a.
Arguments Throw {A} err.

(** ** Events

    One record stands for the union [TriggerEvent] (mouse, touch,
    keyboard); a field an event kind does not have reads as
    [undefined] ([JUndefined], [None], [false], the empty string). *)

Record Touch : Type := mkTouch {
  touch_clientX : jsnum;
  touch_clientY : jsnum
}.

Record Event : Type := mkEvent {
  type : string;
  clientX : jsnum;
  clientY : jsnum;
  changedTouches : option (list Touch);
  button : jsnum;
  ctrlKey : bool;
  key : string
}.

(** [{} as TriggerEvent]: the initial trigger event of a menu. *)
Definition emptyEvent : Event :=
  mkEvent "" JUndefined JUndefined None JUndefined false "".

Definition mouseEvent (ty : string) (cx cy : jsnum) (btn : Z) (ctrl : bool) : Event :=
  mkEvent ty cx cy None (JNum btn) ctrl "".

Definition touchEvent (ty : string) (ts : list Touch) : Event :=
  mkEvent ty JUndefined JUndefined (Some ts) JUndefined false "".

Definition keyboardEvent (ty : string) (k : string) (ctrl : bool) : Event :=
  mkEvent ty JUndefined JUndefined None JUndefined ctrl k.

(** ** utils.ts *)

Record Position : Type := mkPosition {
  pos_x : jsnum;
  pos_y : jsnum
}.

Global Instance Position_eq_dec : EqDecision Position.
Proof. solve_decision. Defined.

(** [if (!v || v < 0) v = 0]. *)
Definition zeroIfFalsyOrNegative (v : jsnum) : jsnum :=
  if negb (truthy v) || jlt v (JNum 0) then JNum 0 else v.

(** The first half of [getMousePosition]: the coordinates of the
    event, overwritten by those of the first changed touch when the
    event has [changedTouches].  Reading [touch[0].clientX] on an
    empty touch list throws a [TypeError]. *)
Definition readCoordinates (e : Event) : result Position :=
  let pos := mkPosition (clientX e) (clientY e) in
  let touch := changedTouches e in
  match touch with
  | Some ts =>
      match ts !! 0%nat with
      | Some t0 => Ok (mkPosition (touch_clientX t0) (touch_clientY t0))
      | None => Throw (TypeError "Cannot read properties of undefined (reading 'clientX')")
      end
  | None => Ok pos
  end.

Definition getMousePosition (e : Event) : result Position :=
  match readCoordinates e with
  | Ok p =>
      Ok (mkPosition (zeroIfFalsyOrNegative (pos_x p))
                     (zeroIfFalsyOrNegative (pos_y p)))
  | Throw err => Throw err
  end.

(** [BooleanPredicate]: a boolean or a function of the handler
    parameters. *)
Inductive BooleanPredicate (P : Type) : Type :=
  | PredConst (b : bool)
  | PredFn (f : P → bool).

Arguments PredConst {P} b.
Arguments PredFn {P} f.

Definition getPredicateValue {P : Type} (predicate : BooleanPredicate P) (payload : P) : bool :=
  match predicate with
  | PredFn f => f payload
  | PredConst b => b
  end.

(** ** constants.ts *)

(** Keys of the event manager: a menu id or a member of [EVENT]. *)
Inductive EventKey : Type :=
  | KNum (n : Z)
  | KStr (s : string).

Global Instance EventKey_eq_dec : EqDecision EventKey.
Proof. solve_decision. Defined.

Global Instance EventKey_countable : Countable EventKey.
Proof.
  refine (inj_countable'
    (λ k, match k with KNum n => inl n | KStr s => inr s end)
    (λ c, match c with inl n => KNum n | inr s => KStr s end) _).
  by intros [].
Defined.

(** [const enum EVENT { HIDE_ALL }]: the first member is [0]. *)
Definition HIDE_ALL : EventKey := KNum 0.

Definition hideOnEvents : list string :=
  ["resize"; "contextmenu"; "click"; "scroll"; "blur"].

(** ** Menu: state and reducer *)

(** A value of type [any] that the menu only passes along. *)
Inductive any : Type :=
  | AnyUndefined
  | AnyNull
  | AnyObject (tag : Z).

Record MenuState : Type := mkMenuState {
  x : jsnum;
  y : jsnum;
  visible : bool;
  triggerEvent : Event;
  propsFromTrigger : any;
  willLeave : bool
}.

(** [Partial<MenuState>]: [None] is an absent key. *)
Record PartialMenuState : Type := mkPartial {
  p_x : option jsnum;
  p_y : option jsnum;
  p_visible : option bool;
  p_triggerEvent : option Event;
  p_propsFromTrigger : option any;
  p_willLeave : option bool
}.

Definition emptyPartial : PartialMenuState :=
  mkPartial None None None None None None.

Inductive Payload : Type :=
  | PayloadObject (p : PartialMenuState)
  | PayloadFunction (f : MenuState → PartialMenuState).

(** [{ ...state, ...partial }]. *)
Definition spread (state : MenuState) (p : PartialMenuState) : MenuState :=
  mkMenuState
    (default (x state) (p_x p))
    (default (y state) (p_y p))
    (default (visible state) (p_visible p))
    (default (triggerEvent state) (p_triggerEvent p))
    (default (propsFromTrigger state) (p_propsFromTrigger p))
    (default (willLeave state) (p_willLeave p)).

Definition reducer (state : MenuState) (payload : Payload) : MenuState :=
  spread state
    match payload with
    | PayloadFunction f => f state
    | PayloadObject p => p
    end.

Definition initialState : MenuState :=
  mkMenuState (JNum 0) (JNum 0) false emptyEvent AnyNull false.

(** ** Item

    A DOM node is known by its identity.  What a handler does to the
    outside (the event, the node, the user's callback) is recorded as a
    trace of [ItemEffect]s, in program order. *)

Definition NodeId : Type := nat.

Record ItemParams : Type := mkItemParams {
  ip_id : any;
  ip_data : any;
  ip_triggerEvent : Event;
  ip_props : any;
  ip_event : option Event
}.

Inductive ItemEffect : Type :=
  | ItemStopPropagation (e : Event)
  | ItemPreventDefault (e : Event)
  | ItemFocus (node : NodeId)
  | ItemHideAllOnBlur (node : NodeId)
  | ItemOnClick (args : ItemParams).

(** A handler's outcome: the effects it performed and the error that
    interrupted it, if any. *)
Definition Outcome : Type := (list ItemEffect * option JsError)%type.

(** An entry of the item tracker ([Map<HTMLElement, ...>]). *)
Record ItemEntry : Type := mkItemEntry {
  node : NodeId;
  isSubmenu : bool;
  entry_keyMatcher : option (Event → Outcome);
  submenuRefTracker : option nat;
  setSubmenuPosition : bool
}.

Record ItemProps : Type := mkItemProps {
  item_id : any;
  data : any;
  item_triggerEvent : Event;
  item_propsFromTrigger : any;
  keyMatcher : option (Event → bool);
  disabled : BooleanPredicate ItemParams;
  hidden : BooleanPredicate ItemParams;
  closeOnClick : bool
}.

(** A rendered [Item]: its props and the [itemNode] ref. *)
Record Item : Type := mkItem {
  item_props : ItemProps;
  itemNode : option NodeId
}.

Definition handlerParams (p : ItemProps) (ev : option Event) : ItemParams :=
  mkItemParams (item_id p) (data p) (item_triggerEvent p) (item_propsFromTrigger p) ev.

Definition isDisabled (p : ItemProps) : bool :=
  getPredicateValue (disabled p) (handlerParams p None).

Definition isHidden (p : ItemProps) : bool :=
  getPredicateValue (hidden p) (handlerParams p None).

(** [dispatchUserHandler]: focus the node, hide all menus once it
    blurs, then call [onClick].  [itemNode.current!] is not checked:
    without a node, [node.focus()] throws. *)
Definition dispatchUserHandler (it : Item) (ev : option Event) : Outcome :=
  match itemNode it with
  | Some n =>
      ([ItemFocus n; ItemHideAllOnBlur n; ItemOnClick (handlerParams (item_props it) ev)], None)
  | None =>
      ([], Some (TypeError "Cannot read properties of undefined (reading 'focus')"))
  end.

Definition handleClick (it : Item) (e : Event) : Outcome :=
  let ev := Some e in
  let stop := ItemStopPropagation e in
  if negb (isDisabled (item_props it)) then
    if negb (closeOnClick (item_props it)) then
      ([stop; ItemOnClick (handlerParams (item_props it) ev)], None)
    else
      let '(effs, err) := dispatchUserHandler it ev in (stop :: effs, err)
  else ([stop], None).

Definition handleKeyDown (it : Item) (e : Event) : Outcome :=
  if bool_decide (key e = "Enter") || bool_decide (key e = " ") then
    let '(effs, err) := dispatchUserHandler it (Some e) in
    (ItemStopPropagation e :: effs, err)
  else ([], None).

(** The closure stored as [keyMatcher] in the tracker. *)
Definition trackedKeyMatcher (it : Item) (km : Event → bool) (e : Event) : Outcome :=
  if km e then
    let '(effs, err) := dispatchUserHandler it (Some e) in
    (ItemStopPropagation e :: ItemPreventDefault e :: effs, err)
  else ([], None).

(** [registerItem]: the ref callback.  It returns the item with its
    [itemNode] ref and the tracker, both possibly updated.  The
    tracker is a [Map] from nodes to entries: what [set] and [get] do
    is modelled, not the order in which the [Map] lists its entries. *)
Definition registerItem (it : Item) (n : option NodeId) (itemTracker : gmap NodeId ItemEntry)
    : Item * gmap NodeId ItemEntry :=
  match n with
  | Some nd =>
      if negb (isDisabled (item_props it)) then
        let it' := mkItem (item_props it) (Some nd) in
        (it',
         <[nd := mkItemEntry nd false
                   (if negb (isDisabled (item_props it)) then
                      match keyMatcher (item_props it) with
                      | Some km => Some (trackedKeyMatcher it' km)
                      | None => None
                      end
                    else None)
                   None false]> itemTracker)
      else (it, itemTracker)
  | None => (it, itemTracker)
  end.

(** ** Submenu *)

(** The theme of the UI kit: only [theme.spacing] is used. *)
Record Theme : Type := mkTheme {
  spacing : Z → string
}.

Record Window : Type := mkWindow {
  innerWidth : Z;
  innerHeight : Z
}.

Record CSSStyle : Type := mkStyle {
  top : string;
  left : string;
  bottom : string;
  right : string
}.

Global Instance CSSStyle_eq_dec : EqDecision CSSStyle.
Proof. solve_decision. Defined.

Record DOMRect : Type := mkRect {
  rect_right : Z;
  rect_bottom : Z
}.

(** The submenu panel: its bounding rectangle as laid out when
    [setPosition] is called, and its inline style. *)
Record SubmenuNode : Type := mkSubmenuNode {
  getBoundingClientRect : DOMRect;
  style : CSSStyle
}.




(** [trackRef]: a submenu registers itself in its parent's tracker. *)
Definition trackRef (submenuDisabled : bool) (ownTracker : nat) (n : option NodeId)
    (parentItemTracker : gmap NodeId ItemEntry) : gmap NodeId ItemEntry :=
  match n with
  | Some nd =>
      if negb submenuDisabled
      then <[nd := mkItemEntry nd true None (Some ownTracker) true]> parentItemTracker
      else parentItemTracker
  | None => parentItemTracker
  end.

(** ** The keyboard controller

    [createKeyboardController] lives in another file; the menu only
    calls its methods.  They act on the controller's own state;
    [openSubmenu] also answers whether a submenu was opened. *)

Class KeyboardController (C : Type) : Type := {
  init : gmap NodeId ItemEntry → C → C;
  moveUp : C → C;
  moveDown : C → C;
  openSubmenu : C → bool * C;
  closeSubmenu : C → C;
  matchKeys : Event → C → C
}.

(** A controller that records the calls it receives and answers
    [openSubmenu] with a fixed boolean. *)
Inductive ControllerCall : Type :=
  | CallInit
  | CallMoveUp
  | CallMoveDown
  | CallOpenSubmenu
  | CallCloseSubmenu
  | CallMatchKeys (e : Event).

Record Recorder : Type := mkRecorder {
  answer : bool;
  calls : list ControllerCall
}.

Definition record (c : ControllerCall) (r : Recorder) : Recorder :=
  mkRecorder (answer r) (calls r ++ [c]).

Global Instance Recorder_controller : KeyboardController Recorder := {
  init _ r := record CallInit r;
  moveUp r := record CallMoveUp r;
  moveDown r := record CallMoveDown r;
  openSubmenu r := (answer r, record CallOpenSubmenu r);
  closeSubmenu r := record CallCloseSubmenu r;
  matchKeys e r := record (CallMatchKeys e) r
}.

(** ** Menu: the component instance *)

Record MenuProps : Type := mkMenuProps {
  menuId : EventKey;
  preventDefaultOnKeydown : bool;
  disableBoundariesCheck : bool;
  (** a ref was forwarded, so [ref ?? nodeRef] attaches that one *)
  forwardedRef : bool;
  (** [isFn(onVisibilityChange)] *)
  onVisibilityChange : bool
}.

Record MenuNode : Type := mkMenuNode {
  offsetWidth : Z;
  offsetHeight : Z
}.

(** Listeners on [window]: the two closures of this menu, and
    listeners of other code. *)
Inductive Listener : Type :=
  | ListenHandleKeyboard
  | ListenHide
  | ListenOther (n : nat).

Global Instance Listener_eq_dec : EqDecision Listener.
Proof. solve_decision. Defined.

(** What the menu does to the outside, in program order. *)
Inductive Effect : Type :=
  | StopPropagation (e : Event)
  | PreventDefault (e : Event)
  | VisibilityChange (isVisible : bool).

Record Menu (C : Type) : Type := mkMenu {
  props : MenuProps;
  state : MenuState;
  nodeRef : option MenuNode;
  itemTracker : gmap NodeId ItemEntry;
  menuController : C;
  wasVisible : option bool;
  visibilityId : option nat;
  window : Window;
  listeners : list (string * Listener);
  timers : list nat;
  nextTimer : nat;
  (** the box the panel takes when it is rendered *)
  panel : MenuNode;
  log : list Effect
}.

Arguments mkMenu {C}.
Arguments props {C}.
Arguments state {C}.
Arguments nodeRef {C}.
Arguments itemTracker {C}.
Arguments menuController {C}.
Arguments wasVisible {C}.
Arguments visibilityId {C}.
Arguments window {C}.
Arguments listeners {C}.
Arguments timers {C}.
Arguments nextTimer {C}.
Arguments panel {C}.
Arguments log {C}.

Section MenuUpdates.
Context {C : Type}.
Implicit Type m : Menu C.

Definition set_props (v : MenuProps) m : Menu C :=
  mkMenu v (state m) (nodeRef m) (itemTracker m) (menuController m) (wasVisible m)
    (visibilityId m) (window m) (listeners m) (timers m) (nextTimer m) (panel m) (log m).

Definition set_state (v : MenuState) m : Menu C :=
  mkMenu (props m) v (nodeRef m) (itemTracker m) (menuController m) (wasVisible m)
    (visibilityId m) (window m) (listeners m) (timers m) (nextTimer m) (panel m) (log m).

Definition set_nodeRef (v : option MenuNode) m : Menu C :=
  mkMenu (props m) (state m) v (itemTracker m) (menuController m) (wasVisible m)
    (visibilityId m) (window m) (listeners m) (timers m) (nextTimer m) (panel m) (log m).

Definition set_itemTracker (v : gmap NodeId ItemEntry) m : Menu C :=
  mkMenu (props m) (state m) (nodeRef m) v (menuController m) (wasVisible m)
    (visibilityId m) (window m) (listeners m) (timers m) (nextTimer m) (panel m) (log m).

Definition set_menuController (v : C) m : Menu C :=
  mkMenu (props m) (state m) (nodeRef m) (itemTracker m) v (wasVisible m)
    (visibilityId m) (window m) (listeners m) (timers m) (nextTimer m) (panel m) (log m).

Definition set_wasVisible (v : option bool) m : Menu C :=
  mkMenu (props m) (state m) (nodeRef m) (itemTracker m) (menuController m) v
    (visibilityId m) (window m) (listeners m) (timers m) (nextTimer m) (panel m) (log m).

Definition set_visibilityId (v : option nat) m : Menu C :=
  mkMenu (props m) (state m) (nodeRef m) (itemTracker m) (menuController m) (wasVisible m)
    v (window m) (listeners m) (timers m) (nextTimer m) (panel m) (log m).

Definition set_environment (w : Window) (p : MenuNode) m : Menu C :=
  mkMenu (props m) (state m) (nodeRef m) (itemTracker m) (menuController m) (wasVisible m)
    (visibilityId m) w (listeners m) (timers m) (nextTimer m) p (log m).

Definition set_listeners (v : list (string * Listener)) m : Menu C :=
  mkMenu (props m) (state m) (nodeRef m) (itemTracker m) (menuController m) (wasVisible m)
    (visibilityId m) (window m) v (timers m) (nextTimer m) (panel m) (log m).

Definition set_timers (v : list nat) (next : nat) m : Menu C :=
  mkMenu (props m) (state m) (nodeRef m) (itemTracker m) (menuController m) (wasVisible m)
    (visibilityId m) (window m) (listeners m) v next (panel m) (log m).

Definition emit_effect (e : Effect) m : Menu C :=
  mkMenu (props m) (state m) (nodeRef m) (itemTracker m) (menuController m) (wasVisible m)
    (visibilityId m) (window m) (listeners m) (timers m) (nextTimer m) (panel m) (log m ++ [e]).
End MenuUpdates.

(** [window.addEventListener] and [window.removeEventListener], on
    the list of the listeners of [window]: a listener already
    registered for the type is not added again. *)
Definition addEventListener (ty : string) (l : Listener) (ls : list (string * Listener))
    : list (string * Listener) :=
  if bool_decide ((ty, l) ∈ ls) then ls else ls ++ [(ty, l)].

Definition removeEventListener (ty : string) (l : Listener) (ls : list (string * Listener))
    : list (string * Listener) :=
  filter (λ r, r ≠ (ty, l)) ls.

(** The argument of [show]: the trigger event, the props handed to
    the items and an optional explicit position. *)
Record ShowContextMenuParams : Type := mkShowParams {
  event : Event;
  params_props : any;
  position : option Position
}.

(** ** Menu: the functions of the component

    A committed render and the effects it triggers are taken as one
    step: [setState] applies the reducer, renders and runs the effects
    whose dependencies changed, cleanup first. *)

Section MenuFunctions.
Context {C : Type} `{!KeyboardController C}.
Implicit Type m : Menu C.

Definition checkBoundaries m (cx cy : jsnum) : Position :=
  match nodeRef m with
  | Some nd =>
      if negb (disableBoundariesCheck (props m)) then
        let iw := JNum (innerWidth (window m)) in
        let ih := JNum (innerHeight (window m)) in
        let ow := JNum (offsetWidth nd) in
        let oh := JNum (offsetHeight nd) in
        let cx' := if jgt (jadd cx ow) iw then jsub cx (jsub (jadd cx ow) iw) else cx in
        let cy' := if jgt (jadd cy oh) ih then jsub cy (jsub (jadd cy oh) ih) else cy in
        mkPosition cx' cy'
      else mkPosition cx cy
  | None => mkPosition cx cy
  end.

(** [checkBoundaries] with every operation rounded as on doubles. *)
Definition checkBoundaries64 m (cx cy : jsnum) : Position :=
  match nodeRef m with
  | Some nd =>
      if negb (disableBoundariesCheck (props m)) then
        let iw := JNum (innerWidth (window m)) in
        let ih := JNum (innerHeight (window m)) in
        let ow := JNum (offsetWidth nd) in
        let oh := JNum (offsetHeight nd) in
        let cx' := if jgt (jadd64 cx ow) iw then jsub64 cx (jsub64 (jadd64 cx ow) iw) else cx in
        let cy' := if jgt (jadd64 cy oh) ih then jsub64 cy (jsub64 (jadd64 cy oh) ih) else cy in
        mkPosition cx' cy'
      else mkPosition cx cy
  | None => mkPosition cx cy
  end.

(** Rendering attaches [nodeRef] to the panel while the menu is
    visible (unless a ref was forwarded) and detaches it otherwise. *)
Definition render m : Menu C :=
  set_nodeRef
    (if visible (state m) && negb (forwardedRef (props m)) then Some (panel m) else None) m.

(** Effect "collect menu items for keyboard navigation". *)
Definition effect_tracker m : Menu C :=
  if negb (visible (state m)) then set_itemTracker ∅ m
  else set_menuController (init (itemTracker m) (menuController m)) m.

(** Effect on [state.visible]: check the boundaries once the node is
    attached.  The update leaves [visible] as it is, so the render
    that follows triggers no effect. *)
Definition effect_boundaries m : Menu C :=
  if visible (state m) then
    let p := checkBoundaries m (x (state m)) (y (state m)) in
    set_state
      (reducer (state m)
         (PayloadObject (mkPartial (Some (pos_x p)) (Some (pos_y p)) None None None None))) m
  else m.

(** Effect "subscribe dom events": setup and cleanup. *)
Definition effect_dom_setup m : Menu C :=
  if visible (state m) then
    set_listeners
      (foldl (λ acc ev, addEventListener ev ListenHide acc)
         (addEventListener "keydown" ListenHandleKeyboard (listeners m)) hideOnEvents) m
  else m.

Definition effect_dom_cleanup m : Menu C :=
  set_listeners
    (foldl (λ acc ev, removeEventListener ev ListenHide acc)
       (removeEventListener "keydown" ListenHandleKeyboard (listeners m)) hideOnEvents) m.

Definition commit (was : bool) m : Menu C :=
  let m1 := render m in
  if bool_decide (was = visible (state m1)) then m1
  else effect_dom_setup (effect_boundaries (effect_tracker (effect_dom_cleanup m1))).

Definition setState (payload : Payload) m : Menu C :=
  commit (visible (state m)) (set_state (reducer (state m) payload) m).

Definition clearTimeout (tid : option nat) m : Menu C :=
  match tid with
  | Some i => set_timers (filter (λ j, j ≠ i) (timers m)) (nextTimer m) m
  | None => m
  end.

(** [position || getMousePosition(event)]. *)
Definition requestedPosition (params : ShowContextMenuParams) : result Position :=
  match position params with
  | Some pos => Ok pos
  | None => getMousePosition (event params)
  end.

(** [show].  [onVisibilityChange] is read from the current props; the
    closure that the event manager calls holds the one of the render
    in which it was subscribed, which is the same as long as
    [onVisibilityChange] stays a function or stays absent.  The ref
    callbacks of the items, which run when the render is committed,
    are steps of their own ([ActItemRef]). *)
Definition show (params : ShowContextMenuParams) m : Menu C * option JsError :=
  let m0 := emit_effect (StopPropagation (event params)) m in
  match requestedPosition params with
  | Throw err => (m0, Some err)
  | Ok p =>
      let c := checkBoundaries m0 (pos_x p) (pos_y p) in
      let m1 :=
        setState
          (PayloadObject
             (mkPartial (Some (pos_x c)) (Some (pos_y c)) (Some true)
                (Some (event params)) (Some (params_props params)) (Some false))) m0 in
      let m2 := clearTimeout (visibilityId m1) m1 in
      let m3 :=
        if negb (default false (wasVisible m2)) && onVisibilityChange (props m2)
        then set_wasVisible (Some true) (emit_effect (VisibilityChange true) m2)
        else m2 in
      (m3, None)
  end.

(** The guard of [hide]: a right click or ctrl+click that is not a
    [contextmenu] event. *)
Definition hide_ignores (e : option Event) : bool :=
  match e with
  | Some ev =>
      (jstrict_eq (button ev) (JNum 2) || ctrlKey ev)
      && negb (bool_decide (type ev = "contextmenu"))
  | None => false
  end.

Definition hide_payload : Payload :=
  PayloadFunction (λ st,
    mkPartial None None (Some (if visible st then false else visible st)) None None None).

Definition hide (e : option Event) m : Menu C :=
  if hide_ignores e then m
  else
    let m1 := setState hide_payload m in
    let tid := nextTimer m1 in
    set_visibilityId (Some tid) (set_timers (timers m1 ++ [tid]) (S tid) m1).

(** The callback [hide] passes to [setTimeout]; [onVisibilityChange]
    is read as in [show]. *)
Definition fireTimeout (tid : nat) m : Menu C :=
  if bool_decide (tid ∈ timers m) then
    let m1 := set_timers (filter (λ j, j ≠ tid) (timers m)) (nextTimer m) m in
    let m2 := if onVisibilityChange (props m1)
              then emit_effect (VisibilityChange false) m1 else m1 in
    set_wasVisible (Some false) m2
  else m.

Definition preventDefault (e : Event) m : Menu C :=
  if preventDefaultOnKeydown (props m) then emit_effect (PreventDefault e) m else m.

Definition handleKeyboard (e : Event) m : Menu C :=
  let k := key e in
  if bool_decide (k = "Enter") || bool_decide (k = " ") then
    let '(opened, c) := openSubmenu (menuController m) in
    let m1 := set_menuController c m in
    if negb opened then hide None m1 else m1
  else if bool_decide (k = "Escape") then hide None m
  else if bool_decide (k = "ArrowUp") then
    let m1 := preventDefault e m in
    set_menuController (moveUp (menuController m1)) m1
  else if bool_decide (k = "ArrowDown") then
    let m1 := preventDefault e m in
    set_menuController (moveDown (menuController m1)) m1
  else if bool_decide (k = "ArrowRight") then
    let m1 := preventDefault e m in
    set_menuController (snd (openSubmenu (menuController m1))) m1
  else if bool_decide (k = "ArrowLeft") then
    let m1 := preventDefault e m in
    set_menuController (closeSubmenu (menuController m1)) m1
  else set_menuController (matchKeys e (menuController m)) m.

(** A listener called with an event. *)
Definition invoke (l : Listener) (e : Event) m : Menu C :=
  match l with
  | ListenHandleKeyboard => handleKeyboard e m
  | ListenHide => hide (Some e) m
  | ListenOther _ => m
  end.

(** [window] dispatches [e]: the listeners registered for its type
    when the dispatch starts are called in order, except those removed
    in the meantime. *)
Definition dispatchEvent (e : Event) m : Menu C :=
  foldl
    (λ acc (r : string * Listener),
       if bool_decide (r ∈ listeners acc) then invoke r.2 e acc else acc)
    m
    (filter (λ r : string * Listener, r.1 = type e) (listeners m)).

(** The parent renders the menu again with new props: the effect on
    the DOM events runs again when [preventDefaultOnKeydown] changed. *)
Definition rerender (p : MenuProps) m : Menu C :=
  let m1 := render (set_props p m) in
  if bool_decide (preventDefaultOnKeydown (props m) = preventDefaultOnKeydown p) then m1
  else effect_dom_setup (effect_dom_cleanup m1).

(** The first render and its effects. *)
Definition mount (p : MenuProps) (c : C) (w : Window) (box : MenuNode)
    (others : list (string * nat)) : Menu C :=
  let m0 :=
    mkMenu p initialState None ∅ c None None w
      (map (λ r : string * nat, (r.1, ListenOther r.2)) others) [] 1%nat box [] in
  effect_dom_setup (effect_boundaries (effect_tracker (render m0))).

(** What can happen to a mounted menu.  [ActItemRef] is the ref
    callback of an item of the menu, which runs when a render of the
    item is committed; [ActEnvironment] is a change of the window or of
    the panel's size.  The listeners of other code on [window] are
    those given at the mount. *)
Inductive Action : Type :=
  | ActShow (params : ShowContextMenuParams)
  | ActHideAll
  | ActWindowEvent (e : Event)
  | ActTimeout (tid : nat)
  | ActRerender (p : MenuProps)
  | ActEnvironment (w : Window) (box : MenuNode)
  | ActItemRef (it : Item) (n : option NodeId).

Definition step (a : Action) m : Menu C :=
  match a with
  | ActShow params => (show params m).1
  | ActHideAll => hide None m
  | ActWindowEvent e => dispatchEvent e m
  | ActTimeout tid => fireTimeout tid m
  | ActRerender p => rerender p m
  | ActEnvironment w box => render (set_environment w box m)
  | ActItemRef it n => set_itemTracker (registerItem it n (itemTracker m)).2 m
  end.

Definition run (acts : list Action) m : Menu C :=
  foldl (λ acc a, step a acc) m acts.

Inductive reachable : Menu C → Prop :=
  | reachable_mount p c w box others :
      reachable (mount p c w box others)
  | reachable_step a m :
      reachable m → reachable (step a m).

End MenuFunctions.

(** ** The event manager and the subscriptions of a menu *)

(** The handlers a menu subscribes: its [show] and its [hide], known
    by the component instance they belong to. *)
Inductive Handler : Type :=
  | HandlerShow (inst : nat)
  | HandlerHide (inst : nat).

Global Instance Handler_eq_dec : EqDecision Handler.
Proof. solve_decision. Defined.

(** Modelled from the spec: the event manager ([eventManager] of
    [../core]) is missing from the sources.  The spec calls it "a
    small pub/sub event manager used to show/hide menus by id": each
    event key has the handlers subscribed to it, [on] subscribes a
    handler (once), [off] unsubscribes it, and [emit] calls the
    handlers subscribed to the key, in subscription order. *)
Definition on (ev : EventKey) (h : Handler) (eventList : gmap EventKey (list Handler))
    : gmap EventKey (list Handler) :=
  match eventList !! ev with
  | Some hs => if bool_decide (h ∈ hs) then eventList else <[ev := (hs ++ [h])%list]> eventList
  | None => <[ev := [h]]> eventList
  end.

(** Modelled from the spec: [off] of the missing event manager. *)
Definition off (ev : EventKey) (h : Handler) (eventList : gmap EventKey (list Handler))
    : gmap EventKey (list Handler) :=
  match eventList !! ev with
  | Some hs => <[ev := filter (λ h', h' ≠ h) hs]> eventList
  | None => eventList
  end.

(** Modelled from the spec: [emit] of the missing event manager; the
    result lists the handlers it calls. *)
Definition emit (ev : EventKey) (eventList : gmap EventKey (list Handler)) : list Handler :=
  default [] (eventList !! ev).

(** The effect "subscribe event manager" of the menu [inst] with id
    [m], and its cleanup. *)
Definition subscribe (inst : nat) (m : EventKey) (eventList : gmap EventKey (list Handler))
    : gmap EventKey (list Handler) :=
  on HIDE_ALL (HandlerHide inst) (on m (HandlerShow inst) eventList).

Definition unsubscribe (inst : nat) (m : EventKey) (eventList : gmap EventKey (list Handler))
    : gmap EventKey (list Handler) :=
  off HIDE_ALL (HandlerHide inst) (off m (HandlerShow inst) eventList).

(** The application: the event manager and the mounted menus, each
    component instance with its menu. *)
Record App (C : Type) : Type := mkApp {
  app_eventList : gmap EventKey (list Handler);
  app_menus : gmap nat (Menu C)
}.

Arguments mkApp {C}.
Arguments app_eventList {C}.
Arguments app_menus {C}.

Section AppFunctions.
Context {C : Type} `{!KeyboardController C}.

(** What [hide] reads when it is called with the argument of [show]:
    an object without [button], [ctrlKey] and [type]. *)
Definition argsAsEvent (params : ShowContextMenuParams) : Event := emptyEvent.

(** A subscribed handler called with the argument [args] of [emit]
    ([None] when [emit] gets the key alone, as for [HIDE_ALL]): the
    [show] of the source destructures its argument, which throws on
    [undefined]; the [hide] of the source takes it as its event. *)
Definition callHandler (h : Handler) (args : option ShowContextMenuParams)
    (ms : gmap nat (Menu C)) : gmap nat (Menu C) * option JsError :=
  match h with
  | HandlerShow inst =>
      match ms !! inst with
      | Some m =>
          match args with
          | Some params => (<[inst := (show params m).1]> ms, (show params m).2)
          | None =>
              (ms, Some (TypeError "Cannot destructure property 'event' of 'undefined'"))
          end
      | None => (ms, None)
      end
  | HandlerHide inst =>
      match ms !! inst with
      | Some m => (<[inst := hide (argsAsEvent <$> args) m]> ms, None)
      | None => (ms, None)
      end
  end.

(** Modelled from the spec: [emit] calls the handlers in subscription
    order; a handler that throws ends the call. *)
Fixpoint callHandlers (hs : list Handler) (args : option ShowContextMenuParams)
    (ms : gmap nat (Menu C)) : gmap nat (Menu C) * option JsError :=
  match hs with
  | [] => (ms, None)
  | h :: hs' =>
      match callHandler h args ms with
      | (ms', Some err) => (ms', Some err)
      | (ms', None) => callHandlers hs' args ms'
      end
  end.

Definition emitApp (ev : EventKey) (args : option ShowContextMenuParams) (app : App C)
    : App C * option JsError :=
  let r := callHandlers (emit ev (app_eventList app)) args (app_menus app) in
  (mkApp (app_eventList app) r.1, r.2).

(** A menu is mounted: the effect "subscribe event manager" runs. *)
Definition mountApp (inst : nat) (p : MenuProps) (c : C) (w : Window) (box : MenuNode)
    (others : list (string * nat)) (app : App C) : App C :=
  mkApp (subscribe inst (menuId p) (app_eventList app))
    (<[inst := mount p c w box others]> (app_menus app)).

(** A menu is unmounted: the cleanup of that effect runs. *)
Definition unmountApp (inst : nat) (app : App C) : App C :=
  match app_menus app !! inst with
  | Some m =>
      mkApp (unsubscribe inst (menuId (props m)) (app_eventList app))
        (delete inst (app_menus app))
  | None => app
  end.

(** Something happens to one mounted menu; when it is rendered with
    another [id] or [disableBoundariesCheck] the effect "subscribe
    event manager" is cleaned up and runs again. *)
Definition stepApp (inst : nat) (a : Action) (app : App C) : App C :=
  match app_menus app !! inst with
  | Some m =>
      mkApp
        match a with
        | ActRerender p =>
            if bool_decide (menuId p = menuId (props m)
                            ∧ disableBoundariesCheck p = disableBoundariesCheck (props m))
            then app_eventList app
            else subscribe inst (menuId p)
                   (unsubscribe inst (menuId (props m)) (app_eventList app))
        | _ => app_eventList app
        end
        (<[inst := step a m]> (app_menus app))
  | None => app
  end.

Inductive app_reachable : App C → Prop :=
  | app_start : app_reachable (mkApp ∅ ∅)
  | app_mount app inst p c w box others :
      app_reachable app →
      app_menus app !! inst = None →
      app_reachable (mountApp inst p c w box others app)
  | app_unmount app inst :
      app_reachable app → app_reachable (unmountApp inst app)
  | app_step app inst a :
      app_reachable app → app_reachable (stepApp inst a app)
  | app_emit app ev args :
      app_reachable app → app_reachable (emitApp ev args app).1.

End AppFunctions.

(** The ids of the mounted menus. *)
Definition menuIds {C : Type} (ms : gmap nat (Menu C)) : gmap nat EventKey :=
  (λ m, menuId (props m)) <$> ms.

(** The handlers subscribed to a key are, each once, the [show] of the
    mounted menus with that id and, for [HIDE_ALL], the [hide] of
    every mounted menu. *)
Definition subscriptions_inv (eventList : gmap EventKey (list Handler))
    (ids : gmap nat EventKey) : Prop :=
  (∀ k, NoDup (emit k eventList))
  ∧ ∀ k h, h ∈ emit k eventList ↔
      ∃ inst m, ids !! inst = Some m
        ∧ ((h = HandlerShow inst ∧ k = m) ∨ (h = HandlerHide inst ∧ k = HIDE_ALL)).

(** ** Predicates used in the statements *)

(** A number that is at least [0]. *)
Definition nonneg (v : jsnum) : Prop :=
  ∃ z, v = JNum z ∧ 0 ≤ z.

(** A coordinate that is negative, zero, [NaN] or [undefined]. *)
Definition degenerate (v : jsnum) : Prop :=
  match v with
  | JNum z => z ≤ 0
  | _ => True
  end.

(** The listeners a visible menu keeps on [window]. *)
Definition ownListeners : list (string * Listener) :=
  ("keydown", ListenHandleKeyboard) :: map (λ ev, (ev, ListenHide)) hideOnEvents.

(** Listeners of other code. *)
Definition foreign (ls : list (string * Listener)) : Prop :=
  Forall (λ r, ∃ n, r.2 = ListenOther n) ls.

(** The invariant of a mounted menu: [nodeRef] is attached exactly
    while the panel is rendered, and [window] carries the listeners of
    the menu, after those of other code, exactly while the menu is
    visible. *)
Definition menu_inv {C : Type} (m : Menu C) : Prop :=
  nodeRef m =
    (if visible (state m) && negb (forwardedRef (props m)) then Some (panel m) else None)
  ∧ ∃ others, foreign others
      ∧ listeners m = (others ++ (if visible (state m) then ownListeners else []))%list.

(** ** Sample values *)

Definition sampleProps : MenuProps :=
  mkMenuProps (KStr "menu") true false false true.

Definition sampleMenu : Menu Recorder :=
  mount sampleProps (mkRecorder false []) (mkWindow 800 600) (mkMenuNode 200 100)
    [("click", 7%nat)].

Definition rightClick (cx cy : Z) : Event :=
  mouseEvent "contextmenu" (JNum cx) (JNum cy) 2 false.

Definition shownMenu : Menu Recorder :=
  step (ActShow (mkShowParams (rightClick 100 100) AnyNull None)) sampleMenu.

(** A click left of the viewport, and a request to show the menu at
    an explicit position near the right edge. *)
Definition offscreenClick : Event :=
  mouseEvent "contextmenu" (JNum (-5)) (JNum 10) 2 false.

Definition showAtEdge : ShowContextMenuParams :=
  mkShowParams (rightClick 100 100) AnyNull (Some (mkPosition (JNum 1000) (JNum 0))).

(** An item disabled by a predicate on the props the trigger passed. *)
Definition disabledWhenNoProps (args : ItemParams) : bool :=
  match ip_props args with
  | AnyObject _ => false
  | _ => true
  end.

Definition sampleItem : Item :=
  mkItem
    (mkItemProps (AnyObject 1) AnyUndefined (rightClick 100 100) AnyNull
       (Some (λ e, bool_decide (key e = "c"))) (PredFn disabledWhenNoProps)
       (PredConst false) true)
    None.

(** ** Definitions used by the further properties *)

(** [{ ...p, ...q }] on partial states: the keys of [q] win. *)
Definition mergePartial (p q : PartialMenuState) : PartialMenuState :=
  mkPartial
    (match p_x q with Some v => Some v | None => p_x p end)
    (match p_y q with Some v => Some v | None => p_y p end)
    (match p_visible q with Some v => Some v | None => p_visible p end)
    (match p_triggerEvent q with Some v => Some v | None => p_triggerEvent p end)
    (match p_propsFromTrigger q with Some v => Some v | None => p_propsFromTrigger p end)
    (match p_willLeave q with Some v => Some v | None => p_willLeave p end).

(** The keys [handleKeyboard] calls [preventDefault] for. *)
Definition arrowKeys : list string :=
  ["ArrowUp"; "ArrowDown"; "ArrowRight"; "ArrowLeft"].

(** The menu is unmounted: the cleanup of the effect on the DOM events
    runs (the cleanup of the subscription is [unsubscribe]). *)
Definition unmount {C : Type} (m : Menu C) : Menu C :=
  effect_dom_cleanup m.

(** The end of [show], after the state update: the timeout of the
    last [hide] is cleared and the visibility is reported. *)
Definition show_reports {C : Type} (m1 : Menu C) : Menu C :=
  if negb (default false (wasVisible (clearTimeout (visibilityId m1) m1)))
     && onVisibilityChange (props (clearTimeout (visibilityId m1) m1))
  then set_wasVisible (Some true)
         (emit_effect (VisibilityChange true) (clearTimeout (visibilityId m1) m1))
  else clearTimeout (visibilityId m1) m1.

(** The state update of [show] for the checked position [c]. *)
Definition show_payload (params : ShowContextMenuParams) (c : Position) : Payload :=
  PayloadObject
    (mkPartial (Some (pos_x c)) (Some (pos_y c)) (Some true)
       (Some (event params)) (Some (params_props params)) (Some false)).

(** The pending timeouts are distinct, and they and the id kept in
    [visibilityId] were handed out before [nextTimer]. *)
Definition timers_inv {C : Type} (m : Menu C) : Prop :=
  NoDup (timers m)
  ∧ (∀ t, t ∈ timers m → (t < nextTimer m)%nat)
  ∧ (∀ v, visibilityId m = Some v → (v < nextTimer m)%nat).

(** [cloneItems] for children that are items ([None] is a [null]
    child): the [null] children are dropped and every other child is
    cloned with the trigger event and the props of the trigger. *)
Definition cloneItem (triggerEvent : Event) (propsFromTrigger : any) (p : ItemProps)
    : ItemProps :=
  mkItemProps (item_id p) (data p) triggerEvent propsFromTrigger (keyMatcher p)
    (disabled p) (hidden p) (closeOnClick p).

Definition cloneItems (children : list (option ItemProps)) (triggerEvent : Event)
    (propsFromTrigger : any) : list ItemProps :=
  cloneItem triggerEvent propsFromTrigger <$> omap (λ c, c) children.

(** What the menu renders of its children: nothing while it is not
    visible, the cloned children otherwise. *)
Definition renderedItems {C : Type} (m : Menu C) (children : list (option ItemProps))
    : list ItemProps :=
  if visible (state m)
  then cloneItems children (triggerEvent (state m)) (propsFromTrigger (state m))
  else [].

(** No two reports [true] in a row. *)
Definition noRepeatedTrue (l : list bool) : Prop :=
  ∀ l1 l2, l ≠ (l1 ++ true :: true :: l2)%list.

(** The calls of [onVisibilityChange] recorded in a log, in order. *)
Definition visibilityReports (l : list Effect) : list bool :=
  omap (λ e, match e with VisibilityChange b => Some b | _ => None end) l.

(** Whether an effect is a call of [onClick]. *)
Definition isOnClick (eff : ItemEffect) : bool :=
  match eff with
  | ItemOnClick _ => true
  | _ => false
  end.

(** What the reports of visibility keep true while
    [onVisibilityChange] stays a function: no [true] is repeated, and
    after a last report [true] the ref [wasVisible] is set. *)
Definition reports_inv {C : Type} (m : Menu C) : Prop :=
  onVisibilityChange (props m) = true
  ∧ noRepeatedTrue (visibilityReports (log m))
  ∧ (last (visibilityReports (log m)) = Some true → wasVisible m = Some true).

(** An action that leaves [onVisibilityChange] a function. *)
Definition keepsCallback (a : Action) : Prop :=
  match a with
  | ActRerender p => onVisibilityChange p = true
  | _ => True
  end.

(** A menu whose [onVisibilityChange] has been a function since the
    mount: whichever render a closure of [show], of [hide] or of a
    timeout was created in, it holds a function. *)
Definition callbackKept {C : Type} `{!KeyboardController C} (m : Menu C) : Prop :=
  ∃ p c w box others acts,
    onVisibilityChange p = true
    ∧ Forall keepsCallback acts
    ∧ m = run acts (mount p c w box others).

(** A menu whose id is the number 0, which is also the key of
    [HIDE_ALL], mounted alone; and the same with a second menu,
    mounted after it and shown. *)
Definition zeroProps : MenuProps :=
  mkMenuProps (KNum 0) true false false true.

Definition showParams : ShowContextMenuParams :=
  mkShowParams (rightClick 100 100) AnyNull None.

Definition zeroApp : App Recorder :=
  mountApp 0 zeroProps (mkRecorder false []) (mkWindow 800 600) (mkMenuNode 200 100) []
    (mkApp ∅ ∅).

Definition twoMenusApp : App Recorder :=
  (emitApp (KStr "menu") (Some showParams)
     (mountApp 1 sampleProps (mkRecorder false []) (mkWindow 800 600) (mkMenuNode 200 100)
        [] zeroApp)).1.

(** A child of the menu: an item with a key matcher that is disabled
    while the trigger passes no props. *)
Definition toggledChild : ItemProps :=
  mkItemProps (AnyObject 1) AnyUndefined emptyEvent AnyNull
    (Some (λ e, bool_decide (key e = "c"))) (PredFn disabledWhenNoProps)
    (PredConst false) true.

(** The menu is shown with props: the item is rendered enabled and its
    ref callback registers the node 4.  The menu is then shown again,
    while it is visible, without props: the item is rendered disabled
    and the ref callback of that render runs. *)
Definition staleRun : list Action :=
  [ActShow (mkShowParams (rightClick 100 100) (AnyObject 2) None);
   ActItemRef (mkItem (cloneItem (rightClick 100 100) (AnyObject 2) toggledChild) None)
     (Some 4%nat);
   ActShow (mkShowParams (rightClick 100 100) AnyNull None);
   ActItemRef (mkItem (cloneItem (rightClick 100 100) AnyNull toggledChild) (Some 4%nat))
     (Some 4%nat)].

Definition staleMenu : Menu Recorder := run staleRun sampleMenu.

(** An enabled item with a key matcher, and a submenu panel. *)
Definition enabledItem : Item :=
  mkItem
    (mkItemProps (AnyObject 1) AnyUndefined (rightClick 100 100) (AnyObject 2)
       (Some (λ e, bool_decide (key e = "c"))) (PredFn disabledWhenNoProps)
       (PredConst false) true)
    None.

Definition sampleTheme : Theme := mkTheme (λ n, "8px").


Definition samplePanel : SubmenuNode :=
  mkSubmenuNode (mkRect 900 100) (mkStyle "" "" "" "").

(** * Properties *)

(** ** JavaScript numbers *)

Lemma zeroIfFalsyOrNegative_degenerate v :
  degenerate v → zeroIfFalsyOrNegative v = JNum 0.
Proof.
  destruct v as [| |z]; simpl; try done.
  intros Hz. unfold zeroIfFalsyOrNegative, truthy, jlt; simpl.
  repeat case_bool_decide; simpl; try done; lia.
Qed.

Lemma zeroIfFalsyOrNegative_positive v :
  ¬ degenerate v → zeroIfFalsyOrNegative v = v.
Proof.
  destruct v as [| |z]; simpl; try tauto.
  intros Hz. unfold zeroIfFalsyOrNegative, truthy, jlt; simpl.
  repeat case_bool_decide; simpl; try done; lia.
Qed.

Lemma zeroIfFalsyOrNegative_nonneg v : nonneg (zeroIfFalsyOrNegative v).
Proof.
  destruct v as [| |z]; try (exists 0; done).
  destruct (decide (z ≤ 0)) as [Hz|Hz].
  - exists 0. split; [|done]. by apply zeroIfFalsyOrNegative_degenerate.
  - exists z. split; [|lia]. by apply zeroIfFalsyOrNegative_positive.
Qed.

(** ** getMousePosition *)

(** C8: whatever the trigger event, a position returned by
    [getMousePosition] has [x >= 0] and [y >= 0]: a coordinate that is
    negative, zero, [NaN] or [undefined] is replaced by [0], any other
    is kept.  The call returns unless the event has an empty
    [changedTouches], the one case where it throws. *)
Theorem getMousePosition_nonneg (e : Event) :
  match readCoordinates e, getMousePosition e with
  | Ok raw, Ok p =>
      nonneg (pos_x p) ∧ nonneg (pos_y p)
      ∧ (degenerate (pos_x raw) → pos_x p = JNum 0)
      ∧ (degenerate (pos_y raw) → pos_y p = JNum 0)
      ∧ (¬ degenerate (pos_x raw) → pos_x p = pos_x raw)
      ∧ (¬ degenerate (pos_y raw) → pos_y p = pos_y raw)
  | Throw _, Throw _ => changedTouches e = Some []
  | _, _ => False
  end.
Proof.
  unfold getMousePosition.
  destruct (readCoordinates e) as [raw|err] eqn:Hread; simpl.
  - repeat split;
      auto using zeroIfFalsyOrNegative_nonneg, zeroIfFalsyOrNegative_degenerate,
        zeroIfFalsyOrNegative_positive.
  - unfold readCoordinates in Hread.
    destruct (changedTouches e) as [[|t ts]|]; simpl in Hread; congruence.
Qed.

(** ** checkBoundaries *)

Lemma checkBoundaries_attached {C : Type} (m : Menu C) (nd : MenuNode) (cx cy : Z) :
  nodeRef m = Some nd →
  disableBoundariesCheck (props m) = false →
  checkBoundaries m (JNum cx) (JNum cy) =
    mkPosition
      (JNum (if bool_decide (innerWidth (window m) < cx + offsetWidth nd)
             then cx - (cx + offsetWidth nd - innerWidth (window m)) else cx))
      (JNum (if bool_decide (innerHeight (window m) < cy + offsetHeight nd)
             then cy - (cy + offsetHeight nd - innerHeight (window m)) else cy)).
Proof.
  intros Hnode Hcheck. unfold checkBoundaries. rewrite Hnode, Hcheck. simpl.
  unfold jgt, jadd, jsub; simpl. by repeat case_bool_decide.
Qed.

(** *** Rounding

    Below 2^53 every integer is a double, so nothing is rounded. *)
Lemma roundDouble_exact z : - 2 ^ 53 < z < 2 ^ 53 → roundDouble z = z.
Proof.
  intros Hz. unfold roundDouble.
  assert (Ha : Z.log2 (Z.abs z) - 52 ≤ 0).
  { destruct (decide (Z.abs z = 0)) as [->|Hne]; [simpl; lia|].
    assert (Z.log2 (Z.abs z) < 53); [|lia].
    apply Z.log2_lt_pow2; lia. }
  rewrite Z.max_l by lia. simpl (2 ^ 0).
  rewrite Z.div_1_r, Z.mod_1_r. simpl. lia.
Qed.

Lemma roundDouble_small z :
  - 9007199254740992 < z < 9007199254740992 → roundDouble z = z.
Proof. intros Hz. apply roundDouble_exact. by change (2 ^ 53) with 9007199254740992. Qed.

Lemma safePixel_bounds z :
  safePixel z → - 2251799813685248 ≤ z ≤ 2251799813685248.
Proof. unfold safePixel. by change (2 ^ 51) with 2251799813685248. Qed.

(** [roundDouble] rounds as the conversion of the kernel's binary64
    numbers does: to nearest, ties to even. *)
Lemma roundDouble_binary64_samples :
  Forall (λ z, toBinary64 (roundDouble z) = toBinary64 z)
    [10 ^ 17 + 200; 2 ^ 53 + 1; 2 ^ 53 + 3; 2 ^ 54 + 2; 2 ^ 54 + 6; - (2 ^ 53 + 3);
     2 ^ 54 - 1; 2 ^ 62 + 2 ^ 9; 2 ^ 62 + 2 ^ 9 + 1; 2 ^ 62 + 3 * 2 ^ 9;
     12345678901234567; 700; - 5].
Proof. repeat constructor. Qed.

(** One axis of [checkBoundaries64] on safe pixel values: the smaller
    of the coordinate and [limit - size], computed without rounding. *)
Lemma clamp_axis64_safe (z size limit : Z) :
  safePixel z → safePixel size → safePixel limit →
  (if jgt (jadd64 (JNum z) (JNum size)) (JNum limit)
   then jsub64 (JNum z) (jsub64 (jadd64 (JNum z) (JNum size)) (JNum limit))
   else JNum z)
  = JNum (if bool_decide (limit < z + size) then z - (z + size - limit) else z).
Proof.
  intros Hz%safePixel_bounds Hs%safePixel_bounds Hl%safePixel_bounds.
  unfold jgt, jadd64, jsub64; simpl.
  rewrite (roundDouble_small (z + size)) by lia.
  case_bool_decide; [|done].
  rewrite (roundDouble_small (z + size - limit)) by lia.
  by rewrite roundDouble_small by lia.
Qed.

(** On safe pixel values the rounded and the exact computation agree. *)
Lemma checkBoundaries64_exact {C : Type} (m : Menu C) (cx cy : Z) :
  safePixel cx → safePixel cy →
  safePixel (innerWidth (window m)) → safePixel (innerHeight (window m)) →
  (∀ nd, nodeRef m = Some nd → safePixel (offsetWidth nd) ∧ safePixel (offsetHeight nd)) →
  checkBoundaries64 m (JNum cx) (JNum cy) = checkBoundaries m (JNum cx) (JNum cy).
Proof.
  intros Hcx Hcy Hiw Hih Hnode. unfold checkBoundaries64, checkBoundaries.
  destruct (nodeRef m) as [nd|]; [|done].
  destruct (Hnode nd eq_refl) as [How Hoh].
  destruct (negb (disableBoundariesCheck (props m))); [|done].
  cbv zeta.
  rewrite (clamp_axis64_safe cx _ _ Hcx How Hiw), (clamp_axis64_safe cy _ _ Hcy Hoh Hih).
  unfold jgt, jadd, jsub; simpl. by repeat case_bool_decide.
Qed.

(** The claim C1 fails beyond the safe integers and on fractions: at
    [x = 10^17], with a panel 200 wide in a window 800 wide, the three
    operations of the source give 608 and not 600, so the right edge
    is at 808; clamping the result again gives 600, so clamping is not
    idempotent there.  The kernel's binary64 numbers give the same
    608, give 0 at [x = 10^21] (the product of 10^10 and 10^11), and
    give 600.0000000000001 (the double after 600) at [x = 1000.1] (the
    quotient of 10001 by 10). *)
Lemma checkBoundaries_clamps_counterexample :
  nodeRef shownMenu = Some (mkMenuNode 200 100)
  ∧ disableBoundariesCheck (props shownMenu) = false
  ∧ innerWidth (window shownMenu) = 800
  ∧ innerWidth (window shownMenu) < 10 ^ 17 + 200
  ∧ roundDouble (10 ^ 17) = 10 ^ 17
  ∧ checkBoundaries64 shownMenu (JNum (10 ^ 17)) (JNum 0) = mkPosition (JNum 608) (JNum 0)
  ∧ 608 + 200 ≠ innerWidth (window shownMenu)
  ∧ checkBoundaries64 shownMenu (JNum 608) (JNum 0) = mkPosition (JNum 600) (JNum 0)
  ∧ clampAxisBinary64 (toBinary64 (10 ^ 17)) (toBinary64 200) (toBinary64 800)
    = toBinary64 608
  ∧ clampAxisBinary64 (PrimFloat.mul (toBinary64 (10 ^ 10)) (toBinary64 (10 ^ 11)))
      (toBinary64 200) (toBinary64 800)
    = toBinary64 0
  ∧ clampAxisBinary64 (PrimFloat.div (toBinary64 10001) (toBinary64 10))
      (toBinary64 200) (toBinary64 800)
    = PrimFloat.next_up (toBinary64 600)
  ∧ PrimFloat.eqb
      (PrimFloat.add (PrimFloat.next_up (toBinary64 600)) (toBinary64 200))
      (toBinary64 800)
    = false.
Proof.
  split_and!; try reflexivity.
  intros H. vm_compute in H. discriminate.
Qed.

(** C1, amended: with the node attached ([offsetWidth] [w],
    [offsetHeight] [h]), the boundary check not disabled and integer
    pixel values of at most 2^51 in absolute value (position, panel
    and window), no operation of [checkBoundaries] rounds: it returns
    [x] reduced by the overflow [x + w - innerWidth] when
    [x + w > innerWidth], so that the right edge of the menu is the
    edge of the viewport, and likewise [y] reduced by
    [y + h - innerHeight] when [y + h > innerHeight]; a coordinate
    that does not overflow is returned as it is. *)
Theorem checkBoundaries_clamps {C : Type} (m : Menu C) (nd : MenuNode) (cx cy : Z) :
  nodeRef m = Some nd →
  disableBoundariesCheck (props m) = false →
  safePixel cx → safePixel cy →
  safePixel (offsetWidth nd) → safePixel (offsetHeight nd) →
  safePixel (innerWidth (window m)) → safePixel (innerHeight (window m)) →
  checkBoundaries64 m (JNum cx) (JNum cy) =
    mkPosition
      (JNum (if bool_decide (innerWidth (window m) < cx + offsetWidth nd)
             then cx - (cx + offsetWidth nd - innerWidth (window m)) else cx))
      (JNum (if bool_decide (innerHeight (window m) < cy + offsetHeight nd)
             then cy - (cy + offsetHeight nd - innerHeight (window m)) else cy))
  ∧ checkBoundaries m (JNum cx) (JNum cy) = checkBoundaries64 m (JNum cx) (JNum cy)
  ∧ (innerWidth (window m) < cx + offsetWidth nd →
     ∃ cx', pos_x (checkBoundaries64 m (JNum cx) (JNum cy)) = JNum cx'
            ∧ cx' + offsetWidth nd = innerWidth (window m))
  ∧ (innerHeight (window m) < cy + offsetHeight nd →
     ∃ cy', pos_y (checkBoundaries64 m (JNum cx) (JNum cy)) = JNum cy'
            ∧ cy' + offsetHeight nd = innerHeight (window m))
  ∧ (cx + offsetWidth nd ≤ innerWidth (window m) →
     pos_x (checkBoundaries64 m (JNum cx) (JNum cy)) = JNum cx)
  ∧ (cy + offsetHeight nd ≤ innerHeight (window m) →
     pos_y (checkBoundaries64 m (JNum cx) (JNum cy)) = JNum cy).
Proof.
  intros Hnode Hcheck Hcx Hcy How Hoh Hiw Hih.
  assert (Hex : checkBoundaries64 m (JNum cx) (JNum cy)
                = checkBoundaries m (JNum cx) (JNum cy)).
  { apply checkBoundaries64_exact; try done.
    intros nd' Hnd'. rewrite Hnode in Hnd'. by simplify_eq. }
  rewrite Hex, (checkBoundaries_attached m nd cx cy Hnode Hcheck). simpl.
  split; [done|]. split; [done|].
  repeat split.
  - intros Hover. rewrite bool_decide_eq_true_2 by done. eexists. split; [done|]. lia.
  - intros Hover. rewrite bool_decide_eq_true_2 by done. eexists. split; [done|]. lia.
  - intros Hfit. rewrite bool_decide_eq_false_2 by lia. done.
  - intros Hfit. rewrite bool_decide_eq_false_2 by lia. done.
Qed.

Lemma checkBoundaries_clamps_witness :
  checkBoundaries64 shownMenu (JNum 700) (JNum 550) = mkPosition (JNum 600) (JNum 500).
Proof.
  assert (Hsafe : ∀ z, - 1000 ≤ z ≤ 1000 → safePixel z).
  { intros z Hz. unfold safePixel. change (2 ^ 51) with 2251799813685248. lia. }
  pose proof (checkBoundaries_clamps shownMenu (mkMenuNode 200 100) 700 550
                eq_refl eq_refl) as H.
  destruct H as [H _]; try (apply Hsafe; simpl; lia).
  exact H.
Defined.

(** Without a node, or with the check disabled, nothing is clamped. *)
Lemma checkBoundaries_detached {C : Type} (m : Menu C) (cx cy : jsnum) :
  nodeRef m = None ∨ disableBoundariesCheck (props m) = true →
  checkBoundaries m cx cy = mkPosition cx cy.
Proof.
  unfold checkBoundaries. intros [-> | ->]; [done|]. by destruct (nodeRef m).
Qed.

(** ** The reducer *)

Lemma reducer_hide_frame (st : MenuState) :
  x (reducer st hide_payload) = x st
  ∧ y (reducer st hide_payload) = y st
  ∧ triggerEvent (reducer st hide_payload) = triggerEvent st
  ∧ propsFromTrigger (reducer st hide_payload) = propsFromTrigger st
  ∧ willLeave (reducer st hide_payload) = willLeave st
  ∧ (visible st = false → reducer st hide_payload = st).
Proof.
  destruct st as [sx sy [] ev pr wl]; simpl; repeat split; done.
Qed.

(** ** Renders and effects *)

Section MenuFacts.
Context {C : Type} `{!KeyboardController C}.
Implicit Type m : Menu C.

Lemma visible_effect_boundaries m :
  visible (state (effect_boundaries m)) = visible (state m).
Proof. unfold effect_boundaries. by destruct (visible (state m)) eqn:Hv. Qed.

Lemma state_effect_tracker m : state (effect_tracker m) = state m.
Proof. unfold effect_tracker. by destruct (negb _). Qed.

Lemma state_effect_dom_setup m : state (effect_dom_setup m) = state m.
Proof. unfold effect_dom_setup. by destruct (visible _). Qed.

Lemma state_effect_dom_cleanup m : state (effect_dom_cleanup m) = state m.
Proof. reflexivity. Qed.

Lemma state_render m : state (render m) = state m.
Proof. reflexivity. Qed.

Lemma visible_commit was m :
  visible (state (commit was m)) = visible (state m).
Proof.
  unfold commit. case_bool_decide; [done|].
  by rewrite state_effect_dom_setup, visible_effect_boundaries, state_effect_tracker.
Qed.

Lemma state_commit_hidden was m :
  visible (state m) = false → state (commit was m) = state m.
Proof.
  intros Hv. unfold commit. case_bool_decide; [done|].
  rewrite state_effect_dom_setup. unfold effect_boundaries.
  rewrite state_effect_tracker, state_effect_dom_cleanup, state_render, Hv.
  by rewrite state_effect_tracker.
Qed.

Lemma visible_reducer_hide (st : MenuState) :
  visible (reducer st hide_payload) = false.
Proof. by destruct st as [sx sy [] ev pr wl]. Qed.

Lemma visible_setState payload m :
  visible (state (setState payload m)) = visible (reducer (state m) payload).
Proof. unfold setState. by rewrite visible_commit. Qed.

Lemma state_hide m :
  state (hide None m) = reducer (state m) hide_payload.
Proof.
  unfold hide; simpl. unfold setState.
  rewrite state_commit_hidden; [done|].
  apply visible_reducer_hide.
Qed.

Lemma state_hide_event e m :
  hide_ignores e = false → state (hide e m) = reducer (state m) hide_payload.
Proof.
  intros He. unfold hide. rewrite He. simpl. unfold setState.
  rewrite state_commit_hidden; [done|].
  apply visible_reducer_hide.
Qed.

Lemma hide_ignores_spec (e : option Event) :
  hide_ignores e = true ↔
  ∃ ev, e = Some ev
        ∧ (button ev = JNum 2 ∨ ctrlKey ev = true)
        ∧ type ev ≠ "contextmenu".
Proof.
  destruct e as [ev|]; simpl.
  - rewrite andb_true_iff, orb_true_iff, negb_true_iff, bool_decide_eq_false.
    assert (Hb : jstrict_eq (button ev) (JNum 2) = true ↔ button ev = JNum 2).
    { destruct (button ev) as [| |z]; simpl; try (split; congruence).
      rewrite bool_decide_eq_true. split; congruence. }
    rewrite Hb. split.
    + intros [Hc Ht]. by exists ev.
    + intros (ev' & Heq & Hc & Ht). by simplify_eq.
  - split; [done|]. by intros (ev & Heq & _).
Qed.

(** C5: [hide] called with an event that is not null, whose button
    is [2] or whose [ctrlKey] is set, and whose type is not
    "contextmenu", returns at once and leaves the menu as it was; with
    any other event, or none, it goes on and [visible] ends false. *)
Theorem hide_guard m (e : option Event) :
  (hide_ignores e = true ↔
     ∃ ev, e = Some ev
           ∧ (button ev = JNum 2 ∨ ctrlKey ev = true)
           ∧ type ev ≠ "contextmenu")
  ∧ (hide_ignores e = true → hide e m = m)
  ∧ (hide_ignores e = false → visible (state (hide e m)) = false).
Proof.
  split; [apply hide_ignores_spec|]. split.
  - intros He. unfold hide. by rewrite He.
  - intros He. rewrite state_hide_event by done.
    apply visible_reducer_hide.
Qed.

(** C9: the state update made by [hide] (the reducer applied to the
    payload of [hide]) touches at most [visible]: [x], [y],
    [triggerEvent], [propsFromTrigger] and [willLeave] keep their
    values, and the state of a menu that is already invisible is left
    as it was. *)
Theorem hide_update_frame m (e : option Event) :
  (hide_ignores e = false → state (hide e m) = reducer (state m) hide_payload)
  ∧ x (state (hide e m)) = x (state m)
  ∧ y (state (hide e m)) = y (state m)
  ∧ triggerEvent (state (hide e m)) = triggerEvent (state m)
  ∧ propsFromTrigger (state (hide e m)) = propsFromTrigger (state m)
  ∧ willLeave (state (hide e m)) = willLeave (state m)
  ∧ (visible (state m) = false → state (hide e m) = state m).
Proof.
  destruct (hide_ignores e) eqn:He.
  - unfold hide. rewrite He. by repeat split.
  - rewrite state_hide_event by done.
    split; [done|]. apply reducer_hide_frame.
Qed.

End MenuFacts.

(** ** Submenu: setPosition *)



(** ** Item *)

(** X24: an [Item] whose [disabled] predicate is true for the current
    handler parameters never calls [onClick] on a click, which only
    stops the propagation, and its ref callback does not touch the
    item tracker: the tracker is left as it was, so a node that was
    not tracked stays untracked (and an entry made earlier stays). *)
Theorem disabled_item_inert {C : Type} `{!KeyboardController C}
    (it : Item) (e : Event) (n : option NodeId) (m : Menu C) :
  isDisabled (item_props it) = true →
  handleClick it e = ([ItemStopPropagation e], None)
  ∧ (∀ args, ItemOnClick args ∉ (handleClick it e).1)
  ∧ registerItem it n (itemTracker m) = (it, itemTracker m)
  ∧ (∀ nd, itemTracker m !! nd = None →
           (registerItem it n (itemTracker m)).2 !! nd = None)
  ∧ step (ActItemRef it n) m = m.
Proof.
  intros Hdis.
  assert (Hclick : handleClick it e = ([ItemStopPropagation e], None)).
  { unfold handleClick. by rewrite Hdis. }
  assert (Hreg : registerItem it n (itemTracker m) = (it, itemTracker m)).
  { unfold registerItem. rewrite Hdis. by destruct n. }
  simpl. rewrite Hclick, Hreg. simpl. repeat split; try done.
  - intros args Hin. apply list_elem_of_singleton in Hin. discriminate.
  - by destruct m.
Qed.

Lemma disabled_item_inert_witness :
  handleClick sampleItem (rightClick 1 1) = ([ItemStopPropagation (rightClick 1 1)], None)
  ∧ (registerItem sampleItem (Some 4%nat) (itemTracker shownMenu)).2 !! 4%nat = None.
Proof.
  pose proof (disabled_item_inert sampleItem (rightClick 1 1) (Some 4%nat) shownMenu eq_refl)
    as (Hclick & _ & _ & Hreg & _).
  split; [exact Hclick|]. apply Hreg. reflexivity.
Defined.

(** ** The listeners on [window] *)

Lemma removeEventListener_app ty l (a b : list (string * Listener)) :
  removeEventListener ty l (a ++ b) =
  (removeEventListener ty l a ++ removeEventListener ty l b)%list.
Proof. apply filter_app. Qed.

Lemma removeEventListener_foreign ty l (ls : list (string * Listener)) :
  foreign ls → (∀ n, l ≠ ListenOther n) → removeEventListener ty l ls = ls.
Proof.
  intros Hf Hl. unfold removeEventListener.
  induction Hf as [|r ls [n Hr] Hf IH]; [done|].
  rewrite filter_cons, IH. destruct (decide (r ≠ (ty, l))) as [|Hne]; [done|].
  exfalso. apply Hne. intros ->. simpl in Hr. by eapply Hl.
Qed.

Lemma cleanup_app l evs (a b : list (string * Listener)) :
  foldl (λ acc ev, removeEventListener ev l acc) (a ++ b)%list evs =
  (foldl (λ acc ev, removeEventListener ev l acc) a evs
     ++ foldl (λ acc ev, removeEventListener ev l acc) b evs)%list.
Proof.
  revert a b. induction evs as [|ev evs IH]; intros a b; simpl; [done|].
  by rewrite removeEventListener_app, IH.
Qed.

Lemma cleanup_foreign l evs (ls : list (string * Listener)) :
  foreign ls → (∀ n, l ≠ ListenOther n) →
  foldl (λ acc ev, removeEventListener ev l acc) ls evs = ls.
Proof.
  intros Hf Hl. induction evs as [|ev evs IH]; simpl; [done|].
  by rewrite removeEventListener_foreign.
Qed.

(** The cleanup of the effect removes the listeners of the menu and
    keeps the others. *)
Lemma cleanup_listeners (others : list (string * Listener)) (vis : bool) :
  foreign others →
  foldl (λ acc ev, removeEventListener ev ListenHide acc)
    (removeEventListener "keydown" ListenHandleKeyboard
       (others ++ (if vis then ownListeners else []))) hideOnEvents
  = others.
Proof.
  intros Hf.
  rewrite removeEventListener_app, cleanup_app.
  rewrite removeEventListener_foreign, cleanup_foreign by done.
  destruct vis; by rewrite <- (app_nil_r others) at 2.
Qed.

Lemma not_elem_of_foreign (others : list (string * Listener)) ty l :
  foreign others → (∀ n, l ≠ ListenOther n) → (ty, l) ∉ others.
Proof.
  intros Hf Hl Hin. unfold foreign in Hf. rewrite Forall_forall in Hf.
  destruct (Hf _ Hin) as [n Hn]. simpl in Hn. by eapply Hl.
Qed.

Lemma addEventListener_fresh ty l (ls : list (string * Listener)) :
  (ty, l) ∉ ls → addEventListener ty l ls = (ls ++ [(ty, l)])%list.
Proof. intros Hin. unfold addEventListener. by rewrite bool_decide_eq_false_2. Qed.

(** The setup of the effect, on a window without listeners of the
    menu, appends them in order. *)
Lemma setup_listeners (others : list (string * Listener)) :
  foreign others →
  foldl (λ acc ev, addEventListener ev ListenHide acc)
    (addEventListener "keydown" ListenHandleKeyboard others) hideOnEvents
  = (others ++ ownListeners)%list.
Proof.
  intros Hf. unfold hideOnEvents, ownListeners. simpl.
  repeat match goal with
  | |- context [addEventListener ?ty ?l (others ++ ?own)%list] =>
      rewrite (addEventListener_fresh ty l (others ++ own)%list), <- (assoc_L (++));
      [simpl|]
  | |- context [addEventListener ?ty ?l others] =>
      rewrite (addEventListener_fresh ty l others)
  end; try done;
  try (apply not_elem_of_foreign; done);
  try (rewrite elem_of_app; intros [Hin|Hin];
       [by eapply not_elem_of_foreign in Hin
       |by repeat (apply elem_of_cons in Hin as [Hin|Hin]; [discriminate|]);
           apply elem_of_nil in Hin]).
Qed.

(** ** The invariant of a mounted menu *)

Section MenuInvariant.
Context {C : Type} `{!KeyboardController C}.
Implicit Type m : Menu C.

(** The invariant reads five parts of the menu only. *)
Lemma menu_inv_ext m m' :
  visible (state m') = visible (state m) →
  forwardedRef (props m') = forwardedRef (props m) →
  panel m' = panel m →
  nodeRef m' = nodeRef m →
  listeners m' = listeners m →
  menu_inv m → menu_inv m'.
Proof.
  unfold menu_inv. intros Hv Hf Hp Hn Hl. by rewrite Hv, Hf, Hp, Hn, Hl.
Qed.

Lemma commit_inv (was : bool) m others :
  foreign others →
  listeners m = (others ++ (if was then ownListeners else []))%list →
  menu_inv (commit was m)
  ∧ listeners (commit was m)
    = (others ++ (if visible (state m) then ownListeners else []))%list.
Proof.
  intros Hf Hls.
  destruct m as [p [sx sy vis ev pr wl] nr tr c wv vid w ls tm nt pn lg].
  simpl in *. subst ls.
  unfold commit, render, menu_inv; simpl.
  pose proof (cleanup_listeners others true Hf) as Hc1; simpl in Hc1.
  pose proof (cleanup_listeners others false Hf) as Hc2; simpl in Hc2.
  pose proof (setup_listeners others Hf) as Hs; simpl in Hs.
  destruct was, vis; simpl; rewrite ?Hc1, ?Hc2, ?Hs, ?app_nil_r;
    (split; [split; [done|by exists others; rewrite ?app_nil_r]|done]).
Qed.

Lemma setState_inv payload m : menu_inv m → menu_inv (setState payload m).
Proof.
  intros [_ (others & Hf & Hls)]. unfold setState.
  eapply (commit_inv _ _ others); [done|]. exact Hls.
Qed.

Lemma hide_inv e m : menu_inv m → menu_inv (hide e m).
Proof.
  intros Hinv. unfold hide. destruct (hide_ignores e); [done|].
  eapply menu_inv_ext; [..|by apply (setState_inv hide_payload)]; done.
Qed.

Lemma show_inv params m : menu_inv m → menu_inv (show params m).1.
Proof.
  intros Hinv.
  assert (Hinv0 : menu_inv (emit_effect (StopPropagation (event params)) m)).
  { eapply menu_inv_ext; [..|exact Hinv]; done. }
  unfold show.
  destruct (requestedPosition params) as [p|err]; simpl; [|done].
  match goal with
  | |- context [setState ?pl ?m0] =>
      pose proof (setState_inv pl m0 Hinv0) as Hinv1;
      generalize dependent (setState pl m0)
  end.
  intros m1 Hinv1.
  assert (Hinv2 : menu_inv (clearTimeout (visibilityId m1) m1)).
  { unfold clearTimeout. destruct (visibilityId m1); [|done].
    eapply menu_inv_ext; [..|exact Hinv1]; done. }
  destruct (negb _ && _); [|done].
  eapply menu_inv_ext; [..|exact Hinv2]; done.
Qed.

Lemma preventDefault_inv e m : menu_inv m → menu_inv (preventDefault e m).
Proof.
  intros Hinv. unfold preventDefault. destruct (preventDefaultOnKeydown _); [|done].
  eapply menu_inv_ext; [..|exact Hinv]; done.
Qed.

Lemma set_menuController_inv c m : menu_inv m → menu_inv (set_menuController c m).
Proof. intros Hinv. eapply menu_inv_ext; [..|exact Hinv]; done. Qed.

Lemma handleKeyboard_inv e m : menu_inv m → menu_inv (handleKeyboard e m).
Proof.
  intros Hinv. unfold handleKeyboard.
  destruct (openSubmenu (menuController m)) as [opened c] eqn:Hopen.
  repeat case_match;
    auto using hide_inv, set_menuController_inv, preventDefault_inv.
Qed.

Lemma invoke_inv l e m : menu_inv m → menu_inv (invoke l e m).
Proof. destruct l; simpl; auto using handleKeyboard_inv, hide_inv. Qed.

Lemma dispatchEvent_inv e m : menu_inv m → menu_inv (dispatchEvent e m).
Proof.
  unfold dispatchEvent.
  generalize (filter (λ r : string * Listener, r.1 = type e) (listeners m)).
  intros ls. revert m. induction ls as [|r ls IH]; intros m Hinv; simpl; [done|].
  apply IH. case_bool_decide; [by apply invoke_inv|done].
Qed.

Lemma fireTimeout_inv tid m : menu_inv m → menu_inv (fireTimeout tid m).
Proof.
  intros Hinv. unfold fireTimeout. case_bool_decide; [|done].
  destruct (onVisibilityChange (props m)) eqn:Hfn; simpl; rewrite Hfn;
    (eapply menu_inv_ext; [..|exact Hinv]; done).
Qed.

Lemma rerender_inv p m : menu_inv m → menu_inv (rerender p m).
Proof.
  intros [_ (others & Hf & Hls)].
  destruct m as [p0 [sx sy vis ev pr wl] nr tr c wv vid w ls tm nt pn lg].
  simpl in *. subst ls.
  pose proof (cleanup_listeners others true Hf) as Hc1; simpl in Hc1.
  pose proof (cleanup_listeners others false Hf) as Hc2; simpl in Hc2.
  pose proof (setup_listeners others Hf) as Hs; simpl in Hs.
  unfold rerender, render, effect_dom_setup, effect_dom_cleanup, menu_inv; simpl.
  case_bool_decide; destruct vis; simpl; rewrite ?Hc1, ?Hc2, ?Hs;
    (split; [done|by exists others; rewrite ?app_nil_r]).
Qed.

Lemma mount_inv p (c : C) w box others : menu_inv (mount p c w box others).
Proof.
  unfold mount, menu_inv; simpl. split; [done|].
  eexists. split; [|by rewrite app_nil_r].
  unfold foreign. rewrite Forall_forall. intros r Hin.
  apply list_elem_of_fmap in Hin as ([ty n] & -> & _). by exists n.
Qed.

Lemma step_inv a m : menu_inv m → menu_inv (step a m).
Proof.
  intros Hinv. destruct a; simpl.
  - by apply show_inv.
  - by apply hide_inv.
  - by apply dispatchEvent_inv.
  - by apply fireTimeout_inv.
  - by apply rerender_inv.
  - destruct Hinv as [_ (others & Hf & Hls)].
    split; [done|]. by exists others.
  - eapply menu_inv_ext; [..|exact Hinv]; done.
Qed.

Lemma reachable_inv m : reachable m → menu_inv m.
Proof.
  induction 1 as [p c w box others|a m _ IH]; [apply mount_inv|by apply step_inv].
Qed.

(** *** What a window event does *)

Lemma own_filter (ty : string) :
  filter (λ r : string * Listener, r.1 = ty) ownListeners =
  if decide (ty = "keydown") then [("keydown", ListenHandleKeyboard)]
  else if decide (ty ∈ hideOnEvents) then [(ty, ListenHide)]
  else [].
Proof.
  unfold ownListeners, hideOnEvents. simpl.
  rewrite !filter_cons, filter_nil. simpl.
  repeat case_decide; simplify_eq; try done;
    match goal with
    | H : _ ∈ _ |- _ => repeat (apply elem_of_cons in H as [H|H]; [done|]);
                        by apply elem_of_nil in H
    | H : _ ∉ _ |- _ => exfalso; apply H; set_solver
    end.
Qed.

Lemma foreign_dispatch e m (ls : list (string * Listener)) :
  foreign ls →
  foldl (λ acc (r : string * Listener),
           if bool_decide (r ∈ listeners acc) then invoke r.2 e acc else acc) m ls = m.
Proof.
  intros Hf. induction Hf as [|r ls [n Hr] Hf IH]; simpl; [done|].
  rewrite Hr. simpl. by case_bool_decide.
Qed.

Lemma foreign_filter (P : string * Listener → Prop) `{!∀ r, Decision (P r)} ls :
  foreign ls → foreign (filter P ls).
Proof.
  unfold foreign. rewrite !Forall_forall. intros Hf r Hin.
  apply list_elem_of_filter in Hin as [_ Hin]. by apply Hf.
Qed.

Lemma dispatchEvent_spec e m :
  menu_inv m →
  dispatchEvent e m =
    if visible (state m) then
      if decide (type e = "keydown") then handleKeyboard e m
      else if decide (type e ∈ hideOnEvents) then hide (Some e) m
      else m
    else m.
Proof.
  intros [_ (others & Hf & Hls)]. unfold dispatchEvent.
  rewrite Hls at 1. rewrite filter_app, foldl_app.
  rewrite (foreign_dispatch e m (filter _ others)) by by apply foreign_filter.
  destruct (visible (state m)) eqn:Hv; [|done].
  rewrite own_filter.
  destruct (decide (type e = "keydown")) as [Hk|Hk]; simpl.
  - rewrite Hls, bool_decide_eq_true_2; [done|]. set_solver.
  - destruct (decide (type e ∈ hideOnEvents)) as [Hh|Hh]; simpl; [|done].
    rewrite Hls, bool_decide_eq_true_2; [done|].
    apply elem_of_app. right. unfold ownListeners. apply elem_of_cons. right.
    apply list_elem_of_fmap. by exists (type e).
Qed.

(** *** What [show] does *)

Lemma show_throws params m err :
  requestedPosition params = Throw err →
  show params m = (emit_effect (StopPropagation (event params)) m, Some err).
Proof. unfold show. by intros ->. Qed.

Lemma checkBoundaries_ext m m' cx cy :
  nodeRef m' = nodeRef m → props m' = props m → window m' = window m →
  checkBoundaries m' cx cy = checkBoundaries m cx cy.
Proof. unfold checkBoundaries. by intros -> -> ->. Qed.

Lemma effect_tracker_env m :
  props (effect_tracker m) = props m
  ∧ window (effect_tracker m) = window m
  ∧ panel (effect_tracker m) = panel m
  ∧ nodeRef (effect_tracker m) = nodeRef m.
Proof. unfold effect_tracker. by destruct (negb _). Qed.

Lemma effect_boundaries_env m :
  props (effect_boundaries m) = props m
  ∧ window (effect_boundaries m) = window m
  ∧ panel (effect_boundaries m) = panel m
  ∧ nodeRef (effect_boundaries m) = nodeRef m.
Proof. unfold effect_boundaries. by destruct (visible _). Qed.

Lemma effect_dom_setup_env m :
  props (effect_dom_setup m) = props m
  ∧ window (effect_dom_setup m) = window m
  ∧ panel (effect_dom_setup m) = panel m
  ∧ nodeRef (effect_dom_setup m) = nodeRef m.
Proof. unfold effect_dom_setup. by destruct (visible _). Qed.

Lemma commit_env was m :
  props (commit was m) = props m
  ∧ window (commit was m) = window m
  ∧ panel (commit was m) = panel m
  ∧ nodeRef (commit was m) = nodeRef (render m).
Proof.
  unfold commit. case_bool_decide; [done|].
  destruct (effect_dom_setup_env
              (effect_boundaries (effect_tracker (effect_dom_cleanup (render m)))))
    as (-> & -> & -> & ->).
  destruct (effect_boundaries_env (effect_tracker (effect_dom_cleanup (render m))))
    as (-> & -> & -> & ->).
  destruct (effect_tracker_env (effect_dom_cleanup (render m))) as (-> & -> & -> & ->).
  done.
Qed.

Lemma state_commit was m :
  state (commit was m) =
    if bool_decide (was = visible (state m)) then state m
    else if visible (state m) then
      reducer (state m)
        (PayloadObject
           (mkPartial
              (Some (pos_x (checkBoundaries (render m) (x (state m)) (y (state m)))))
              (Some (pos_y (checkBoundaries (render m) (x (state m)) (y (state m)))))
              None None None None))
    else state m.
Proof.
  unfold commit. rewrite state_render. case_bool_decide; [done|].
  rewrite state_effect_dom_setup. unfold effect_boundaries.
  rewrite state_effect_tracker, state_effect_dom_cleanup, state_render.
  destruct (visible (state m)); [|by rewrite state_effect_tracker].
  change (state (set_state ?v ?m')) with v.
  destruct (effect_tracker_env (effect_dom_cleanup (render m))) as (Hp & Hw & _ & Hn).
  by rewrite (checkBoundaries_ext (effect_dom_cleanup (render m))
                (effect_tracker (effect_dom_cleanup (render m)))).
Qed.

(** The tail of [show], after the state update: it touches the
    timers, the log and [wasVisible] only. *)
Lemma show_tail_frame m1 (m3 : Menu C) :
  m3 = (if negb (default false (wasVisible (clearTimeout (visibilityId m1) m1)))
           && onVisibilityChange (props (clearTimeout (visibilityId m1) m1))
        then set_wasVisible (Some true)
               (emit_effect (VisibilityChange true) (clearTimeout (visibilityId m1) m1))
        else clearTimeout (visibilityId m1) m1) →
  state m3 = state m1 ∧ props m3 = props m1 ∧ window m3 = window m1
  ∧ panel m3 = panel m1 ∧ nodeRef m3 = nodeRef m1.
Proof.
  intros ->. unfold clearTimeout.
  destruct (visibilityId m1); simpl; by destruct (negb _ && _).
Qed.

Lemma show_spec params m p :
  menu_inv m →
  requestedPosition params = Ok p →
  (show params m).2 = None
  ∧ state (show params m).1 =
      mkMenuState
        (pos_x (checkBoundaries (show params m).1 (pos_x p) (pos_y p)))
        (pos_y (checkBoundaries (show params m).1 (pos_x p) (pos_y p)))
        true (event params) (params_props params) false
  ∧ props (show params m).1 = props m
  ∧ window (show params m).1 = window m
  ∧ panel (show params m).1 = panel m.
Proof.
  intros [Hnode _] Hp. unfold show. rewrite Hp. cbv zeta.
  set (m0 := emit_effect (StopPropagation (event params)) m).
  set (pl := PayloadObject _).
  assert (Hm0 : nodeRef m0 = nodeRef m ∧ props m0 = props m ∧ window m0 = window m
                ∧ panel m0 = panel m ∧ state m0 = state m) by done.
  destruct Hm0 as (Hn0 & Hp0 & Hw0 & Hb0 & Hs0).
  (* the state update *)
  assert (Hm1 : ∃ m1, m1 = setState pl m0) by eauto.
  destruct Hm1 as [m1 Hm1]. rewrite <- Hm1.
  assert (Hst1 : state m1 =
                 mkMenuState
                   (pos_x (checkBoundaries m1 (pos_x p) (pos_y p)))
                   (pos_y (checkBoundaries m1 (pos_x p) (pos_y p)))
                   true (event params) (params_props params) false
                 ∧ props m1 = props m ∧ window m1 = window m ∧ panel m1 = panel m).
  { rewrite Hm1. unfold setState.
    destruct (commit_env (visible (state m0)) (set_state (reducer (state m0) pl) m0))
      as (Hp' & Hw' & Hpn' & Hn').
    rewrite Hp', Hw', Hpn'. split; [|done].
    rewrite (checkBoundaries_ext (render (set_state (reducer (state m0) pl) m0))) by done.
    rewrite state_commit.
    change (state (set_state ?v ?m')) with v.
    assert (Hvis : visible (reducer (state m0) pl) = true) by done.
    rewrite Hvis, Hs0.
    destruct (visible (state m)) eqn:Hv.
    - rewrite bool_decide_eq_true_2 by done.
      assert (Hsame : ∀ cx cy,
        checkBoundaries (render (set_state (reducer (state m) pl) m0)) cx cy
        = checkBoundaries m0 cx cy).
      { intros cx cy. by apply checkBoundaries_ext. }
      rewrite !Hsame. done.
    - rewrite bool_decide_eq_false_2 by done.
      assert (Hdet : checkBoundaries m0 (pos_x p) (pos_y p) = p).
      { rewrite checkBoundaries_detached; [by destruct p|].
        left. by rewrite Hn0, Hnode. }
      subst pl. rewrite Hdet. done. }
  clear Hm1. clearbody m0 pl.
  match goal with
  | |- context [(?m3, None)] =>
      pose proof (show_tail_frame m1 m3 eq_refl) as (Hst & Hpr & Hwi & Hpa & Hno);
      generalize dependent m3
  end.
  intros m3 Hst Hpr Hwi Hpa Hno. simpl.
  destruct Hst1 as (Hst1 & Hp1 & Hw1 & Hb1).
  rewrite Hst, Hpr, Hwi, Hpa, Hp1, Hw1, Hb1, Hst1.
  rewrite (checkBoundaries_ext m1 m3) by congruence.
  done.
Qed.

End MenuInvariant.

(** ** The keyboard handler *)

Section Keyboard.
Context {C : Type} `{!KeyboardController C}.
Implicit Type m : Menu C.

Lemma state_preventDefault e m : state (preventDefault e m) = state m.
Proof. unfold preventDefault. by destruct (preventDefaultOnKeydown _). Qed.

Lemma menuController_preventDefault e m :
  menuController (preventDefault e m) = menuController m.
Proof. unfold preventDefault. by destruct (preventDefaultOnKeydown _). Qed.

Lemma menuController_commit_hidden was m :
  visible (state m) = false → menuController (commit was m) = menuController m.
Proof.
  intros Hv. unfold commit. cbv zeta. case_bool_decide; [reflexivity|].
  assert (Hsetup : ∀ m', menuController (effect_dom_setup m') = menuController m').
  { intros m'. unfold effect_dom_setup. by destruct (visible (state m')). }
  assert (Hbound : ∀ m', menuController (effect_boundaries m') = menuController m').
  { intros m'. unfold effect_boundaries. by destruct (visible (state m')). }
  rewrite Hsetup, Hbound. unfold effect_tracker.
  by rewrite state_effect_dom_cleanup, state_render, Hv.
Qed.

Lemma menuController_hide e m : menuController (hide e m) = menuController m.
Proof.
  unfold hide. destruct (hide_ignores e); [done|]. simpl.
  unfold setState. rewrite menuController_commit_hidden; [done|].
  apply visible_reducer_hide.
Qed.

(** Either the handler hid the menu, or it left the state alone. *)
Lemma handleKeyboard_cases e m :
  (∃ m1, state m1 = state m ∧ handleKeyboard e m = hide None m1)
  ∨ state (handleKeyboard e m) = state m.
Proof.
  unfold handleKeyboard.
  destruct (openSubmenu (menuController m)) as [opened c] eqn:Hopen.
  repeat case_match; simplify_eq; simpl;
    try (right; by rewrite ?state_preventDefault);
    left; eexists; (split; [|reflexivity]); done.
Qed.

(** C2: the keydown handler of a visible menu sends ArrowUp to
    [moveUp], ArrowDown to [moveDown], ArrowRight to [openSubmenu],
    ArrowLeft to [closeSubmenu], and Escape hides the menu; Enter and
    Space call [openSubmenu] and hide the menu exactly when it answers
    [false]; any other key goes to [matchKeys]. *)
Theorem handleKeyboard_dispatch m (e : Event) :
  visible (state m) = true →
  (key e = "ArrowUp" →
     handleKeyboard e m
     = set_menuController (moveUp (menuController m)) (preventDefault e m))
  ∧ (key e = "ArrowDown" →
     handleKeyboard e m
     = set_menuController (moveDown (menuController m)) (preventDefault e m))
  ∧ (key e = "ArrowRight" →
     handleKeyboard e m
     = set_menuController (openSubmenu (menuController m)).2 (preventDefault e m))
  ∧ (key e = "ArrowLeft" →
     handleKeyboard e m
     = set_menuController (closeSubmenu (menuController m)) (preventDefault e m))
  ∧ (key e = "Escape" →
     handleKeyboard e m = hide None m
     ∧ visible (state (handleKeyboard e m)) = false)
  ∧ (key e = "Enter" ∨ key e = " " →
     menuController (handleKeyboard e m) = (openSubmenu (menuController m)).2
     ∧ handleKeyboard e m
       = (if (openSubmenu (menuController m)).1
          then set_menuController (openSubmenu (menuController m)).2 m
          else hide None (set_menuController (openSubmenu (menuController m)).2 m))
     ∧ (visible (state (handleKeyboard e m)) = false
        ↔ (openSubmenu (menuController m)).1 = false))
  ∧ (key e ∉ ["Enter"; " "; "Escape"; "ArrowUp"; "ArrowDown"; "ArrowRight"; "ArrowLeft"] →
     handleKeyboard e m = set_menuController (matchKeys e (menuController m)) m).
Proof.
  intros Hv. unfold handleKeyboard.
  assert (Henter : key e = "Enter" ∨ key e = " " →
                   bool_decide (key e = "Enter") || bool_decide (key e = " ") = true).
  { intros [-> | ->]; done. }
  split_and!.
  - intros ->. simpl. by rewrite menuController_preventDefault.
  - intros ->. simpl. by rewrite menuController_preventDefault.
  - intros ->. simpl. by rewrite menuController_preventDefault.
  - intros ->. simpl. by rewrite menuController_preventDefault.
  - intros ->. simpl. split; [done|].
    rewrite visible_setState. apply visible_reducer_hide.
  - intros Hk. rewrite (Henter Hk).
    destruct (openSubmenu (menuController m)) as [[] c]; simpl.
    + split_and!; [done..|]. split; congruence.
    + split_and!; [|done|].
      * unfold setState. rewrite menuController_commit_hidden; [done|].
        apply visible_reducer_hide.
      * rewrite visible_setState. split; [done|]. intros _. apply visible_reducer_hide.
  - intros Hk.
    rewrite !bool_decide_eq_false_2; [done|..]; intros Heq; apply Hk; rewrite Heq;
      set_solver.
Qed.

End Keyboard.

Lemma handleKeyboard_dispatch_witness :
  calls (menuController
           (handleKeyboard (keyboardEvent "keydown" "ArrowDown" false) shownMenu))
  = [CallInit; CallMoveDown]
  ∧ visible (state (handleKeyboard (keyboardEvent "keydown" "Enter" false) shownMenu))
    = false.
Proof.
  pose proof (handleKeyboard_dispatch shownMenu
                (keyboardEvent "keydown" "ArrowDown" false) eq_refl)
    as (_ & Hdown & _).
  pose proof (handleKeyboard_dispatch shownMenu
                (keyboardEvent "keydown" "Enter" false) eq_refl)
    as (_ & _ & _ & _ & _ & Henter & _).
  split.
  - rewrite (Hdown eq_refl). reflexivity.
  - apply (Henter (or_introl eq_refl)). reflexivity.
Defined.

(** ** The show/hide state machine *)

Section StateMachine.
Context {C : Type} `{!KeyboardController C}.
Implicit Type m : Menu C.

Lemma own_not_foreign (r : string * Listener) (others : list (string * Listener)) :
  r ∈ ownListeners → foreign others → r ∉ others.
Proof.
  intros Hown Hf Hin. unfold foreign in Hf. rewrite Forall_forall in Hf.
  destruct (Hf _ Hin) as [n Hn].
  unfold ownListeners, hideOnEvents in Hown. simpl in Hown.
  repeat (apply elem_of_cons in Hown as [->|Hown]; [discriminate|]).
  by apply elem_of_nil in Hown.
Qed.

Lemma menu_inv_listeners m (r : string * Listener) :
  menu_inv m → r ∈ ownListeners → (r ∈ listeners m ↔ visible (state m) = true).
Proof.
  intros [_ (others & Hf & Hls)] Hown. rewrite Hls, elem_of_app.
  pose proof (own_not_foreign r others Hown Hf) as Hnot.
  destruct (visible (state m)); split; try done; try tauto.
  intros [Hin|Hin]; [done|]. by apply elem_of_nil in Hin.
Qed.

Lemma state_fireTimeout tid m : state (fireTimeout tid m) = state m.
Proof.
  unfold fireTimeout. case_bool_decide; [|done].
  by destruct (onVisibilityChange _).
Qed.

Lemma state_rerender p m : state (rerender p m) = state m.
Proof.
  unfold rerender. cbv zeta. case_bool_decide; [reflexivity|].
  by rewrite state_effect_dom_setup.
Qed.

(** A step changes [visible] only by showing or by hiding. *)
Lemma step_visible a m :
  menu_inv m →
  visible (state (step a m)) ≠ visible (state m) →
  (∃ params p,
      a = ActShow params
      ∧ requestedPosition params = Ok p
      ∧ state (step a m) =
          mkMenuState
            (pos_x (checkBoundaries (step a m) (pos_x p) (pos_y p)))
            (pos_y (checkBoundaries (step a m) (pos_x p) (pos_y p)))
            true (event params) (params_props params) false)
  ∨ ((a = ActHideAll ∨ ∃ e, a = ActWindowEvent e)
     ∧ ∃ oe m1, state m1 = state m
         ∧ hide_ignores oe = false
         ∧ step a m = hide oe m1
         ∧ state (step a m) = reducer (state m) hide_payload).
Proof.
  intros Hinv Hchg. destruct a as [params| |e|tid|p|w box|it n]; simpl in *.
  - destruct (requestedPosition params) as [p|err] eqn:Hp.
    + left. exists params, p. split; [done|]. split; [done|].
      by apply show_spec.
    + rewrite (show_throws _ _ err) in Hchg by done. done.
  - right. split; [by left|]. exists None, m. split_and!; try done.
    apply state_hide.
  - rewrite dispatchEvent_spec in * by done.
    destruct (visible (state m)) eqn:Hv; [|by rewrite Hv in Hchg].
    destruct (decide (type e = "keydown")).
    + destruct (handleKeyboard_cases e m) as [(m1 & Hst & Heq) | Hst].
      * right. split; [by right; exists e|]. exists None, m1.
        split_and!; try done. by rewrite Heq, state_hide, Hst.
      * by rewrite Hst, Hv in Hchg.
    + destruct (decide (type e ∈ hideOnEvents)); [|by rewrite Hv in Hchg].
      destruct (hide_ignores (Some e)) eqn:Hig.
      * unfold hide in Hchg. rewrite Hig in Hchg. by rewrite Hv in Hchg.
      * right. split; [by right; exists e|]. exists (Some e), m.
        split_and!; try done. by apply state_hide_event.
  - by rewrite state_fireTimeout in Hchg.
  - by rewrite state_rerender in Hchg.
  - done.
  - done.
Qed.

(** C6: in every reachable state of a mounted menu, the keydown
    handler and the listeners that hide the menu (resize, contextmenu,
    click, scroll, blur) are on [window] if and only if the menu is
    visible, so a window event reaches them exactly then; and
    [visible] changes only through [show], which sets it to true
    together with [x], [y], [triggerEvent] and [propsFromTrigger], and
    through [hide], which sets it to false. *)
Theorem listeners_iff_visible m :
  reachable m →
  (("keydown", ListenHandleKeyboard) ∈ listeners m ↔ visible (state m) = true)
  ∧ (∀ ev, ev ∈ ["resize"; "contextmenu"; "click"; "scroll"; "blur"] →
       ((ev, ListenHide) ∈ listeners m ↔ visible (state m) = true))
  ∧ (∀ e, dispatchEvent e m =
            if visible (state m) then
              if decide (type e = "keydown") then handleKeyboard e m
              else if decide (type e ∈ hideOnEvents) then hide (Some e) m
              else m
            else m)
  ∧ (∀ a, visible (state (step a m)) ≠ visible (state m) →
       (∃ params p,
           a = ActShow params
           ∧ requestedPosition params = Ok p
           ∧ state (step a m) =
               mkMenuState
                 (pos_x (checkBoundaries (step a m) (pos_x p) (pos_y p)))
                 (pos_y (checkBoundaries (step a m) (pos_x p) (pos_y p)))
                 true (event params) (params_props params) false)
       ∨ ((a = ActHideAll ∨ ∃ e, a = ActWindowEvent e)
          ∧ ∃ oe m1, state m1 = state m
              ∧ hide_ignores oe = false
              ∧ step a m = hide oe m1
              ∧ state (step a m) = reducer (state m) hide_payload)).
Proof.
  intros Hreach. pose proof (reachable_inv m Hreach) as Hinv.
  split_and!.
  - apply menu_inv_listeners; [done|]. unfold ownListeners. set_solver.
  - intros ev Hev. apply menu_inv_listeners; [done|].
    unfold ownListeners. apply elem_of_cons. right.
    apply list_elem_of_fmap. by exists ev.
  - intros e. by apply dispatchEvent_spec.
  - intros a. by apply step_visible.
Qed.

End StateMachine.

Lemma listeners_iff_visible_witness :
  ("keydown", ListenHandleKeyboard) ∈ listeners shownMenu
  ∧ ("click", ListenHide) ∉ listeners sampleMenu.
Proof.
  pose proof (listeners_iff_visible shownMenu
                (reachable_step _ _ (reachable_mount _ _ _ _ _))) as (Hk & _).
  pose proof (listeners_iff_visible sampleMenu (reachable_mount _ _ _ _ _))
    as (_ & Hh & _).
  split.
  - apply Hk. reflexivity.
  - intros Hin. apply Hh in Hin; [discriminate|].
    do 2 apply list_elem_of_further. apply list_elem_of_here.
Defined.

(** ** Where [show] puts the menu *)

(** The claim that a mouse event gives its own [clientX] and that an
    explicit position is where the menu goes fails: a negative
    coordinate is replaced by [0], and a position near the right edge
    is pulled back into the viewport. *)
Lemma show_position_counterexample :
  changedTouches offscreenClick = None
  ∧ getMousePosition offscreenClick
    ≠ Ok (mkPosition (clientX offscreenClick) (clientY offscreenClick))
  ∧ position showAtEdge = Some (mkPosition (JNum 1000) (JNum 0))
  ∧ x (state (show showAtEdge sampleMenu).1) = JNum 600
  ∧ x (state (show showAtEdge sampleMenu).1) ≠ JNum 1000.
Proof. split_and!; try reflexivity; discriminate. Qed.

Section ShowPosition.
Context {C : Type} `{!KeyboardController C}.
Implicit Type m : Menu C.

(** C4, amended: [getMousePosition] returns the [clientX] and
    [clientY] of the event when it has no [changedTouches], and those
    of the first changed touch when it has some, each coordinate that
    is negative, zero, [NaN] or [undefined] being replaced by [0];
    [show] starts from the explicit position when one is given and
    from [getMousePosition] of the trigger event otherwise, and puts
    the menu at that position passed through [checkBoundaries] for the
    rendered panel: at the position itself when the boundary check is
    disabled, when a ref is forwarded, or when the panel fits in the
    viewport there. *)
Theorem show_position m (params : ShowContextMenuParams) :
  reachable m →
  (∀ e, changedTouches e = None →
        getMousePosition e =
        Ok (mkPosition (zeroIfFalsyOrNegative (clientX e))
                       (zeroIfFalsyOrNegative (clientY e))))
  ∧ (∀ e t ts, changedTouches e = Some (t :: ts) →
        getMousePosition e =
        Ok (mkPosition (zeroIfFalsyOrNegative (touch_clientX t))
                       (zeroIfFalsyOrNegative (touch_clientY t))))
  ∧ (∀ v, (degenerate v → zeroIfFalsyOrNegative v = JNum 0)
          ∧ (¬ degenerate v → zeroIfFalsyOrNegative v = v))
  ∧ (∀ p, position params = Some p
          ∨ (position params = None ∧ getMousePosition (event params) = Ok p) →
       (show params m).2 = None
       ∧ visible (state (show params m).1) = true
       ∧ mkPosition (x (state (show params m).1)) (y (state (show params m).1))
         = checkBoundaries (show params m).1 (pos_x p) (pos_y p)
       ∧ (disableBoundariesCheck (props m) = true ∨ forwardedRef (props m) = true →
          mkPosition (x (state (show params m).1)) (y (state (show params m).1)) = p)
       ∧ (∀ px py, p = mkPosition (JNum px) (JNum py) →
            px + offsetWidth (panel m) ≤ innerWidth (window m) →
            py + offsetHeight (panel m) ≤ innerHeight (window m) →
            mkPosition (x (state (show params m).1)) (y (state (show params m).1)) = p)).
Proof.
  intros Hreach. pose proof (reachable_inv m Hreach) as Hinv.
  split_and!.
  - intros e He. unfold getMousePosition, readCoordinates. by rewrite He.
  - intros e t ts He. unfold getMousePosition, readCoordinates. by rewrite He.
  - intros v. split; [apply zeroIfFalsyOrNegative_degenerate
                     |apply zeroIfFalsyOrNegative_positive].
  - intros p Hreq.
    assert (Hp : requestedPosition params = Ok p).
    { unfold requestedPosition. by destruct Hreq as [-> | [-> ->]]. }
    destruct (show_spec params m p Hinv Hp) as (Hok & Hst & Hpr & Hwi & Hpa).
    pose proof (show_inv params m Hinv) as [Hnode _].
    set (m' := (show params m).1) in *.
    assert (Hvis : visible (state m') = true) by by rewrite Hst.
    assert (Hxy : mkPosition (x (state m')) (y (state m'))
                  = checkBoundaries m' (pos_x p) (pos_y p)).
    { rewrite Hst. simpl. by destruct (checkBoundaries m' (pos_x p) (pos_y p)). }
    rewrite Hvis, Hpr, Hpa in Hnode. simpl in Hnode.
    split_and!; try done.
    + rewrite Hxy. intros [Hdis | Hfwd].
      * rewrite checkBoundaries_detached; [by destruct p|]. right. by rewrite Hpr.
      * rewrite checkBoundaries_detached; [by destruct p|]. left.
        by rewrite Hnode, Hfwd.
    + intros px py -> Hfx Hfy. rewrite Hxy. simpl.
      destruct (forwardedRef (props m)); simpl in Hnode;
        [by apply checkBoundaries_detached; left|].
      destruct (disableBoundariesCheck (props m)) eqn:Hdis;
        [apply checkBoundaries_detached; right; by rewrite Hpr|].
      rewrite (checkBoundaries_attached m' (panel m) px py Hnode) by by rewrite Hpr.
      rewrite Hwi. by rewrite !bool_decide_eq_false_2 by lia.
Qed.

End ShowPosition.

Lemma show_position_witness :
  (show showAtEdge sampleMenu).2 = None
  ∧ mkPosition (x (state (show showAtEdge sampleMenu).1))
               (y (state (show showAtEdge sampleMenu).1))
    = checkBoundaries (show showAtEdge sampleMenu).1 (JNum 1000) (JNum 0).
Proof.
  pose proof (show_position sampleMenu showAtEdge (reachable_mount _ _ _ _ _))
    as (_ & _ & _ & Hshow).
  destruct (Hshow (mkPosition (JNum 1000) (JNum 0)) (or_introl eq_refl))
    as (Hok & _ & Hxy & _).
  split; [exact Hok|exact Hxy].
Defined.

(** ** The event manager *)

Lemma emit_on k ev h h' (eventList : gmap EventKey (list Handler)) :
  h' ∈ emit k (on ev h eventList) ↔ (k = ev ∧ h' = h) ∨ h' ∈ emit k eventList.
Proof.
  unfold emit, on.
  destruct (eventList !! ev) as [hs|] eqn:Hev.
  - case_bool_decide as Hin.
    + split; [by right|]. intros [[-> ->]|?]; [|done]. by rewrite Hev.
    + destruct (decide (k = ev)) as [->|Hne].
      * rewrite lookup_insert_eq, Hev. simpl. rewrite elem_of_app, list_elem_of_singleton.
        naive_solver.
      * rewrite lookup_insert_ne by done. naive_solver.
  - destruct (decide (k = ev)) as [->|Hne].
    + rewrite lookup_insert_eq, Hev. simpl. rewrite list_elem_of_singleton.
      split; [naive_solver|]. intros [[_ ->]|Hin]; [done|]. by apply elem_of_nil in Hin.
    + rewrite lookup_insert_ne by done. naive_solver.
Qed.

Lemma emit_off k ev h h' (eventList : gmap EventKey (list Handler)) :
  h' ∈ emit k (off ev h eventList) ↔ h' ∈ emit k eventList ∧ ¬ (k = ev ∧ h' = h).
Proof.
  unfold emit, off.
  destruct (eventList !! ev) as [hs|] eqn:Hev.
  - destruct (decide (k = ev)) as [->|Hne].
    + rewrite lookup_insert_eq, Hev. simpl. rewrite list_elem_of_filter. naive_solver.
    + rewrite lookup_insert_ne by done. naive_solver.
  - split; [|naive_solver]. intros Hin. split; [done|]. intros [-> _].
    rewrite Hev in Hin. by apply elem_of_nil in Hin.
Qed.

Lemma NoDup_emit_on k ev h (eventList : gmap EventKey (list Handler)) :
  (∀ k', NoDup (emit k' eventList)) → NoDup (emit k (on ev h eventList)).
Proof.
  intros Hnd. unfold on.
  destruct (eventList !! ev) as [hs|] eqn:Hev.
  - case_bool_decide as Hin; [done|]. unfold emit.
    destruct (decide (k = ev)) as [->|Hne].
    + rewrite lookup_insert_eq. simpl. apply NoDup_app. split_and!.
      * specialize (Hnd ev). unfold emit in Hnd. by rewrite Hev in Hnd.
      * intros h' Hh' ->%list_elem_of_singleton. done.
      * apply NoDup_singleton.
    + rewrite lookup_insert_ne by done. apply Hnd.
  - unfold emit. destruct (decide (k = ev)) as [->|Hne].
    + rewrite lookup_insert_eq. simpl. apply NoDup_singleton.
    + rewrite lookup_insert_ne by done. apply Hnd.
Qed.

Lemma NoDup_emit_off k ev h (eventList : gmap EventKey (list Handler)) :
  (∀ k', NoDup (emit k' eventList)) → NoDup (emit k (off ev h eventList)).
Proof.
  intros Hnd. unfold off.
  destruct (eventList !! ev) as [hs|] eqn:Hev; [|done]. unfold emit.
  destruct (decide (k = ev)) as [->|Hne].
  - rewrite lookup_insert_eq. simpl. apply NoDup_filter.
    specialize (Hnd ev). unfold emit in Hnd. by rewrite Hev in Hnd.
  - rewrite lookup_insert_ne by done. apply Hnd.
Qed.

(** * Further properties of the code *)

(** ** checkBoundaries *)

Lemma clamp_axis64_idempotent (v : jsnum) (size limit : Z) :
  safeCoordinate v → safePixel size → safePixel limit →
  let clamp u :=
    if jgt (jadd64 u (JNum size)) (JNum limit)
    then jsub64 u (jsub64 (jadd64 u (JNum size)) (JNum limit)) else u in
  clamp (clamp v) = clamp v.
Proof.
  intros Hv Hs Hl. cbv zeta.
  destruct v as [| |z]; simpl; try done.
  rewrite (clamp_axis64_safe z size limit Hv Hs Hl).
  apply safePixel_bounds in Hv, Hs, Hl.
  case_bool_decide as H1; unfold jgt, jadd64, jsub64; simpl.
  - rewrite (roundDouble_small (z - (z + size - limit) + size)) by lia.
    by rewrite bool_decide_eq_false_2 by lia.
  - rewrite (roundDouble_small (z + size)) by lia.
    by rewrite bool_decide_eq_false_2.
Qed.

(** X1: on integer pixel values of at most 2^51 in absolute value
    (and on [NaN] and [undefined]) clamping is idempotent: checking
    the boundaries of a position that was already checked changes
    nothing.  [show] and the effect on [state.visible] may thus both
    clamp. *)
Theorem checkBoundaries_idempotent {C : Type} (m : Menu C) (cx cy : jsnum) :
  safeCoordinate cx → safeCoordinate cy →
  safePixel (innerWidth (window m)) → safePixel (innerHeight (window m)) →
  (∀ nd, nodeRef m = Some nd → safePixel (offsetWidth nd) ∧ safePixel (offsetHeight nd)) →
  checkBoundaries64 m
    (pos_x (checkBoundaries64 m cx cy)) (pos_y (checkBoundaries64 m cx cy))
  = checkBoundaries64 m cx cy.
Proof.
  intros Hcx Hcy Hiw Hih Hnode. unfold checkBoundaries64.
  destruct (nodeRef m) as [nd|]; [|done].
  destruct (Hnode nd eq_refl) as [How Hoh].
  destruct (negb (disableBoundariesCheck (props m))); [|done].
  cbv zeta. simpl.
  pose proof (clamp_axis64_idempotent cx (offsetWidth nd) (innerWidth (window m))
                Hcx How Hiw) as Hx.
  pose proof (clamp_axis64_idempotent cy (offsetHeight nd) (innerHeight (window m))
                Hcy Hoh Hih) as Hy.
  cbv zeta in Hx, Hy. by rewrite Hx, Hy.
Qed.

Lemma checkBoundaries_idempotent_witness :
  checkBoundaries64 shownMenu
    (pos_x (checkBoundaries64 shownMenu (JNum 700) JNaN))
    (pos_y (checkBoundaries64 shownMenu (JNum 700) JNaN))
  = checkBoundaries64 shownMenu (JNum 700) JNaN.
Proof.
  assert (Hsafe : ∀ z, - 1000 ≤ z ≤ 1000 → safePixel z).
  { intros z Hz. unfold safePixel. change (2 ^ 51) with 2251799813685248. lia. }
  apply (checkBoundaries_idempotent shownMenu (JNum 700) JNaN).
  - apply Hsafe. lia.
  - exact I.
  - apply Hsafe. simpl. lia.
  - apply Hsafe. simpl. lia.
  - intros nd Hnd. injection Hnd as <-. split; apply Hsafe; simpl; lia.
Defined.

(** X2: with the node attached, the check enabled and integer pixel
    values of at most 2^51 in absolute value, the checked coordinate
    is the smaller of the requested one and [innerWidth - offsetWidth]:
    the menu never moves right or down and never overflows the right
    or bottom edge, and when the panel fits in the viewport a
    non-negative position stays non-negative. *)
Theorem checkBoundaries_min {C : Type} (m : Menu C) (nd : MenuNode) (cx cy : Z) :
  nodeRef m = Some nd →
  disableBoundariesCheck (props m) = false →
  safePixel cx → safePixel cy →
  safePixel (offsetWidth nd) → safePixel (offsetHeight nd) →
  safePixel (innerWidth (window m)) → safePixel (innerHeight (window m)) →
  checkBoundaries64 m (JNum cx) (JNum cy)
  = mkPosition (JNum (Z.min cx (innerWidth (window m) - offsetWidth nd)))
               (JNum (Z.min cy (innerHeight (window m) - offsetHeight nd)))
  ∧ (0 ≤ cx → offsetWidth nd ≤ innerWidth (window m) →
     0 ≤ Z.min cx (innerWidth (window m) - offsetWidth nd))
  ∧ (0 ≤ cy → offsetHeight nd ≤ innerHeight (window m) →
     0 ≤ Z.min cy (innerHeight (window m) - offsetHeight nd))
  ∧ (innerWidth (window m) < offsetWidth nd → 0 ≤ cx →
     Z.min cx (innerWidth (window m) - offsetWidth nd) < 0).
Proof.
  intros Hnode Hcheck Hcx Hcy How Hoh Hiw Hih.
  rewrite checkBoundaries64_exact; try done.
  2: { intros nd' Hnd'. rewrite Hnode in Hnd'. by simplify_eq. }
  rewrite (checkBoundaries_attached m nd cx cy Hnode Hcheck).
  split_and!; [|lia..].
  by repeat case_bool_decide; do 2 f_equal; lia.
Qed.

Lemma checkBoundaries_min_witness :
  checkBoundaries64 shownMenu (JNum 700) (JNum 50) = mkPosition (JNum 600) (JNum 50).
Proof.
  assert (Hsafe : ∀ z, - 1000 ≤ z ≤ 1000 → safePixel z).
  { intros z Hz. unfold safePixel. change (2 ^ 51) with 2251799813685248. lia. }
  pose proof (checkBoundaries_min shownMenu (mkMenuNode 200 100) 700 50
                eq_refl eq_refl) as H.
  destruct H as [H _]; try (apply Hsafe; simpl; lia).
  exact H.
Defined.

(** ** The reducer *)

(** X3: state updates compose like object spreads: applying two
    partial states in turn is applying their merge, in which the keys
    of the second win; the empty partial state changes nothing. *)
Theorem reducer_compose (st : MenuState) (p q : PartialMenuState) :
  reducer (reducer st (PayloadObject p)) (PayloadObject q)
  = reducer st (PayloadObject (mergePartial p q))
  ∧ reducer st (PayloadObject emptyPartial) = st
  ∧ mergePartial p emptyPartial = p
  ∧ mergePartial emptyPartial q = q.
Proof.
  destruct st as [sx sy sv se sp sw], p as [px py pv pe pp pw],
    q as [qx qy qv qe qp qw].
  unfold reducer, spread, mergePartial; simpl. split_and!; [| done | done |].
  - f_equal; [by destruct qx|by destruct qy|by destruct qv|by destruct qe
             |by destruct qp|by destruct qw].
  - f_equal; [by destruct qx|by destruct qy|by destruct qv|by destruct qe
             |by destruct qp|by destruct qw].
Qed.

(** ** Submenu: setPosition *)




(** ** Item: clicks, keys and the tracker *)

(** X5: what a click does, whatever the item: [onClick] is called at
    most once and with the click event in its parameters; it is called
    unless the item is disabled or the item must close the menu and
    has no node; hiding the menus on blur is armed exactly for an
    enabled item that closes on click and has a node; and the only
    failure is an enabled, closing item without a node, where
    [node.focus()] throws before [onClick] is reached. *)
Theorem handleClick_outcome (it : Item) (e : Event) :
  (handleClick it e).1 !! 0%nat = Some (ItemStopPropagation e)
  ∧ (∀ args, ItemOnClick args ∈ (handleClick it e).1 →
       args = handlerParams (item_props it) (Some e))
  ∧ length (filter (λ eff, isOnClick eff) (handleClick it e).1)
    = (if negb (isDisabled (item_props it))
          && (negb (closeOnClick (item_props it)) || bool_decide (is_Some (itemNode it)))
       then 1%nat else 0%nat)
  ∧ (∀ n, ItemHideAllOnBlur n ∈ (handleClick it e).1 ↔
       isDisabled (item_props it) = false
       ∧ closeOnClick (item_props it) = true ∧ itemNode it = Some n)
  ∧ (is_Some (handleClick it e).2 ↔
       isDisabled (item_props it) = false
       ∧ closeOnClick (item_props it) = true ∧ itemNode it = None).
Proof.
  unfold handleClick, dispatchUserHandler.
  destruct (isDisabled (item_props it)), (closeOnClick (item_props it)),
    (itemNode it) as [n|]; simpl.
  all: split_and!; try done.
  all: try (intros args Hin;
            repeat (apply elem_of_cons in Hin as [Hin|Hin]; [by simplify_eq|]);
            by apply elem_of_nil in Hin).
  all: try (intros n'; split;
            [intros Hin;
             repeat (apply elem_of_cons in Hin as [Hin|Hin]; [by simplify_eq|]);
             by apply elem_of_nil in Hin
            |intros (? & ? & ?); simplify_eq; set_solver]).
  all: try (split; [by intros [? ?]|by intros (? & ? & ?)]).
  all: try (split; [by intros [? ?]|intros _; by eexists]).
Qed.

(** X6: the ref callback of an enabled item, called with a node, sets
    [itemNode] and puts one entry in the tracker under that node (not
    a submenu, with a key matcher exactly when the item has one) and
    leaves the other entries alone; calling it again changes nothing,
    and calling it with [null] neither clears [itemNode] nor removes
    the entry. *)
Theorem registerItem_tracks (it : Item) (nd : NodeId) (tracker : gmap NodeId ItemEntry) :
  isDisabled (item_props it) = false →
  ∃ entry,
    registerItem it (Some nd) tracker
    = (mkItem (item_props it) (Some nd), <[nd := entry]> tracker)
    ∧ node entry = nd
    ∧ isSubmenu entry = false
    ∧ (is_Some (entry_keyMatcher entry) ↔ is_Some (keyMatcher (item_props it)))
    ∧ (registerItem it (Some nd) tracker).2 !! nd = Some entry
    ∧ (∀ nd', nd' ≠ nd → (registerItem it (Some nd) tracker).2 !! nd' = tracker !! nd')
    ∧ registerItem (registerItem it (Some nd) tracker).1 (Some nd)
        (registerItem it (Some nd) tracker).2
      = registerItem it (Some nd) tracker
    ∧ registerItem (registerItem it (Some nd) tracker).1 None
        (registerItem it (Some nd) tracker).2
      = registerItem it (Some nd) tracker.
Proof.
  intros Hen. unfold registerItem. rewrite Hen. simpl.
  exists (mkItemEntry nd false
            (match keyMatcher (item_props it) with
             | Some km => Some (trackedKeyMatcher (mkItem (item_props it) (Some nd)) km)
             | None => None
             end) None false).
  split; [reflexivity|]. simpl. rewrite Hen. simpl.
  split_and!; try done.
  - destruct (keyMatcher (item_props it)) as [km|]; split; intros [f Hf];
      first [discriminate Hf|by eexists].
  - apply lookup_insert_eq.
  - intros nd' Hne. by apply lookup_insert_ne.
  - by rewrite insert_insert_eq.
Qed.

Lemma registerItem_tracks_witness :
  is_Some ((registerItem enabledItem (Some 4%nat) ∅).2 !! 4%nat).
Proof.
  destruct (registerItem_tracks enabledItem 4%nat ∅ eq_refl)
    as (entry & _ & _ & _ & _ & Hlook & _).
  exists entry. exact Hlook.
Defined.

(** X7: the key matcher the tracker holds for an enabled item: on a
    key event its [keyMatcher] rejects it does nothing; on one it
    accepts it stops the event, prevents its default, focuses the
    node, arms the hiding of the menus and calls [onClick] with that
    event, and it does not fail, the node being the registered one. *)
Theorem tracked_keyMatcher_fires (it : Item) (nd : NodeId)
    (tracker : gmap NodeId ItemEntry) (km : Event → bool) (e : Event) :
  isDisabled (item_props it) = false →
  keyMatcher (item_props it) = Some km →
  ∃ f, ((registerItem it (Some nd) tracker).2 !! nd) ≫= entry_keyMatcher = Some f
    ∧ f e =
        if km e
        then ([ItemStopPropagation e; ItemPreventDefault e; ItemFocus nd;
               ItemHideAllOnBlur nd;
               ItemOnClick (handlerParams (item_props it) (Some e))], None)
        else ([], None).
Proof.
  intros Hen Hkm. unfold registerItem. rewrite Hen. simpl.
  rewrite lookup_insert_eq. simpl. rewrite ?Hen, Hkm. simpl.
  eexists. split; [reflexivity|].
  unfold trackedKeyMatcher, dispatchUserHandler. simpl. by destruct (km e).
Qed.

Lemma tracked_keyMatcher_fires_witness :
  ∃ f, ((registerItem enabledItem (Some 4%nat) ∅).2 !! 4%nat) ≫= entry_keyMatcher = Some f
    ∧ f (keyboardEvent "keydown" "x" false) = ([], None).
Proof.
  destruct (tracked_keyMatcher_fires enabledItem 4%nat ∅ _
              (keyboardEvent "keydown" "x" false) eq_refl eq_refl) as (f & Hf & He).
  exists f. split; [exact Hf|exact He].
Defined.

(** X8: the key handler of an item acts on Enter and Space only, and
    then dispatches the user handler without looking at [disabled],
    [hidden] or [closeOnClick]: two items that differ in these alone
    get the same outcome, which without a node is the [TypeError] of
    [node.focus()] and no call of [onClick]. *)
Theorem handleKeyDown_keys (it : Item) (e : Event) :
  (key e ≠ "Enter" → key e ≠ " " → handleKeyDown it e = ([], None))
  ∧ (key e = "Enter" ∨ key e = " " →
     (∀ n, itemNode it = Some n →
        handleKeyDown it e
        = ([ItemStopPropagation e; ItemFocus n; ItemHideAllOnBlur n;
            ItemOnClick (handlerParams (item_props it) (Some e))], None))
     ∧ (itemNode it = None →
        (handleKeyDown it e).1 = [ItemStopPropagation e]
        ∧ is_Some (handleKeyDown it e).2))
  ∧ (∀ d h c,
       handleKeyDown
         (mkItem
            (mkItemProps (item_id (item_props it)) (data (item_props it))
               (item_triggerEvent (item_props it)) (item_propsFromTrigger (item_props it))
               (keyMatcher (item_props it)) d h c)
            (itemNode it)) e
       = handleKeyDown it e).
Proof.
  unfold handleKeyDown, dispatchUserHandler. split_and!.
  - intros H1 H2. by rewrite !bool_decide_eq_false_2.
  - intros Hk.
    assert (Hb : bool_decide (key e = "Enter") || bool_decide (key e = " ") = true).
    { destruct Hk as [-> | ->]; done. }
    rewrite Hb. split.
    + by intros n ->.
    + intros ->. simpl. split; [done|by eexists].
  - intros d h c. simpl. by destruct it as [[] ?].
Qed.

(** X9: items and submenus share a tracker: registered at two
    different nodes, each is found at its node whichever was
    registered first, the submenu marked [isSubmenu] and every other
    node as before (only what [get] returns is stated, not the order
    in which the [Map] lists its entries); at one node the later
    registration replaces the earlier; a disabled submenu, like a
    [null] node, leaves the tracker as it was. *)
Theorem trackRef_registerItem (it : Item) (own : nat) (n1 n2 : NodeId)
    (tracker : gmap NodeId ItemEntry) :
  isDisabled (item_props it) = false →
  (n1 ≠ n2 →
     (∀ n, trackRef false own (Some n2) (registerItem it (Some n1) tracker).2 !! n
           = (registerItem it (Some n1) (trackRef false own (Some n2) tracker)).2 !! n)
     ∧ (∀ n, n ≠ n1 → n ≠ n2 →
           trackRef false own (Some n2) (registerItem it (Some n1) tracker).2 !! n
           = tracker !! n)
     ∧ isSubmenu <$> (trackRef false own (Some n2)
                        (registerItem it (Some n1) tracker).2 !! n1) = Some false
     ∧ isSubmenu <$> (trackRef false own (Some n2)
                        (registerItem it (Some n1) tracker).2 !! n2) = Some true)
  ∧ isSubmenu <$> (trackRef false own (Some n1)
                     (registerItem it (Some n1) tracker).2 !! n1) = Some true
  ∧ isSubmenu <$> ((registerItem it (Some n1)
                      (trackRef false own (Some n1) tracker)).2 !! n1) = Some false
  ∧ (∀ n, trackRef true own n tracker = tracker)
  ∧ (∀ d, trackRef d own None tracker = tracker).
Proof.
  intros Hen. unfold registerItem, trackRef. rewrite Hen. simpl.
  split_and!.
  - intros Hne. split_and!.
    + intros n. by rewrite insert_insert_ne.
    + intros n H1 H2. by rewrite !lookup_insert_ne.
    + by rewrite lookup_insert_ne, lookup_insert_eq.
    + by rewrite lookup_insert_eq.
  - by rewrite lookup_insert_eq.
  - by rewrite lookup_insert_eq.
  - by intros [].
  - done.
Qed.

Lemma trackRef_registerItem_witness :
  isSubmenu <$> (trackRef false 1%nat (Some 5%nat)
                   (registerItem enabledItem (Some 4%nat) ∅).2 !! 5%nat) = Some true.
Proof.
  destruct (trackRef_registerItem enabledItem 1%nat 4%nat 5%nat ∅ eq_refl)
    as (Hne & _).
  destruct Hne as (_ & _ & _ & H); [discriminate|]. exact H.
Defined.

(** ** Menu: what [show], [hide] and the effects leave behind *)

Section MenuDynamics.
Context {C : Type} `{!KeyboardController C}.
Implicit Type m : Menu C.

Lemma show_unfold params m p :
  requestedPosition params = Ok p →
  show params m =
    (show_reports
       (setState
          (show_payload params
             (checkBoundaries (emit_effect (StopPropagation (event params)) m)
                (pos_x p) (pos_y p)))
          (emit_effect (StopPropagation (event params)) m)), None).
Proof. intros Hp. unfold show. by rewrite Hp. Qed.

Lemma effect_tracker_book m :
  timers (effect_tracker m) = timers m
  ∧ nextTimer (effect_tracker m) = nextTimer m
  ∧ visibilityId (effect_tracker m) = visibilityId m
  ∧ wasVisible (effect_tracker m) = wasVisible m
  ∧ log (effect_tracker m) = log m.
Proof. unfold effect_tracker. by destruct (negb (visible (state m))). Qed.

Lemma effect_boundaries_book m :
  timers (effect_boundaries m) = timers m
  ∧ nextTimer (effect_boundaries m) = nextTimer m
  ∧ visibilityId (effect_boundaries m) = visibilityId m
  ∧ wasVisible (effect_boundaries m) = wasVisible m
  ∧ log (effect_boundaries m) = log m
  ∧ itemTracker (effect_boundaries m) = itemTracker m
  ∧ menuController (effect_boundaries m) = menuController m.
Proof. unfold effect_boundaries. by destruct (visible (state m)). Qed.

Lemma effect_dom_setup_book m :
  timers (effect_dom_setup m) = timers m
  ∧ nextTimer (effect_dom_setup m) = nextTimer m
  ∧ visibilityId (effect_dom_setup m) = visibilityId m
  ∧ wasVisible (effect_dom_setup m) = wasVisible m
  ∧ log (effect_dom_setup m) = log m
  ∧ itemTracker (effect_dom_setup m) = itemTracker m
  ∧ menuController (effect_dom_setup m) = menuController m.
Proof. unfold effect_dom_setup. by destruct (visible (state m)). Qed.

Lemma commit_fields (was : bool) m :
  timers (commit was m) = timers m
  ∧ nextTimer (commit was m) = nextTimer m
  ∧ visibilityId (commit was m) = visibilityId m
  ∧ wasVisible (commit was m) = wasVisible m
  ∧ log (commit was m) = log m
  ∧ itemTracker (commit was m) =
      (if bool_decide (was = visible (state m)) then itemTracker m
       else if visible (state m) then itemTracker m else ∅)
  ∧ menuController (commit was m) =
      (if bool_decide (was = visible (state m)) then menuController m
       else if visible (state m) then init (itemTracker m) (menuController m)
       else menuController m).
Proof.
  unfold commit. cbv zeta. rewrite state_render.
  case_bool_decide; [done|].
  destruct (effect_dom_setup_book
              (effect_boundaries (effect_tracker (effect_dom_cleanup (render m)))))
    as (-> & -> & -> & -> & -> & -> & ->).
  destruct (effect_boundaries_book (effect_tracker (effect_dom_cleanup (render m))))
    as (-> & -> & -> & -> & -> & -> & ->).
  destruct (effect_tracker_book (effect_dom_cleanup (render m)))
    as (-> & -> & -> & -> & ->).
  unfold effect_tracker. rewrite state_effect_dom_cleanup, state_render.
  by destruct (visible (state m)).
Qed.

Lemma show_reports_fields (m1 : Menu C) :
  state (show_reports m1) = state m1
  ∧ props (show_reports m1) = props m1
  ∧ window (show_reports m1) = window m1
  ∧ panel (show_reports m1) = panel m1
  ∧ nodeRef (show_reports m1) = nodeRef m1
  ∧ listeners (show_reports m1) = listeners m1
  ∧ itemTracker (show_reports m1) = itemTracker m1
  ∧ menuController (show_reports m1) = menuController m1
  ∧ visibilityId (show_reports m1) = visibilityId m1
  ∧ nextTimer (show_reports m1) = nextTimer m1
  ∧ timers (show_reports m1) =
      match visibilityId m1 with
      | Some v => filter (λ j, j ≠ v) (timers m1)
      | None => timers m1
      end
  ∧ log (show_reports m1) =
      (log m1 ++ if negb (default false (wasVisible m1)) && onVisibilityChange (props m1)
                 then [VisibilityChange true] else [])%list
  ∧ wasVisible (show_reports m1) =
      if negb (default false (wasVisible m1)) && onVisibilityChange (props m1)
      then Some true else wasVisible m1.
Proof.
  unfold show_reports, clearTimeout.
  destruct (visibilityId m1) eqn:Hv; simpl;
    destruct (negb (default false (wasVisible m1)) && onVisibilityChange (props m1));
    simpl; by rewrite ?app_nil_r.
Qed.

(** The fields of the menu after a [show] that does not throw. *)
Lemma show_fields params m p :
  menu_inv m →
  requestedPosition params = Ok p →
  timers (show params m).1 =
    match visibilityId m with
    | Some v => filter (λ j, j ≠ v) (timers m)
    | None => timers m
    end
  ∧ nextTimer (show params m).1 = nextTimer m
  ∧ visibilityId (show params m).1 = visibilityId m
  ∧ log (show params m).1 =
      (log m ++ StopPropagation (event params)
         :: if negb (default false (wasVisible m)) && onVisibilityChange (props m)
            then [VisibilityChange true] else [])%list
  ∧ wasVisible (show params m).1 =
      (if negb (default false (wasVisible m)) && onVisibilityChange (props m)
       then Some true else wasVisible m)
  ∧ itemTracker (show params m).1 = itemTracker m
  ∧ menuController (show params m).1 =
      (if visible (state m) then menuController m
       else init (itemTracker m) (menuController m))
  ∧ listeners (show params m).1 =
      (listeners m ++ if visible (state m) then [] else ownListeners)%list.
Proof.
  intros [_ (others & Hf & Hls)] Hp. rewrite (show_unfold params m p Hp). simpl.
  set (m0 := emit_effect (StopPropagation (event params)) m).
  set (pl := show_payload params _).
  destruct (show_reports_fields (setState pl m0))
    as (_ & _ & _ & _ & _ & -> & -> & -> & -> & -> & -> & -> & ->).
  unfold setState.
  destruct (commit_fields (visible (state m0)) (set_state (reducer (state m0) pl) m0))
    as (-> & -> & -> & -> & -> & -> & ->).
  destruct (commit_env (visible (state m0)) (set_state (reducer (state m0) pl) m0))
    as (-> & _).
  destruct (commit_inv (visible (state m0)) (set_state (reducer (state m0) pl) m0)
              others Hf Hls) as [_ ->].
  change (state (set_state ?v ?m')) with v.
  assert (Hvis : visible (reducer (state m0) pl) = true) by done.
  rewrite Hvis. subst m0. simpl. rewrite Hls.
  destruct (visible (state m)); simpl.
  - rewrite app_nil_r. split_and!; try done. by rewrite <- app_assoc.
  - rewrite app_nil_r. split_and!; try done. by rewrite <- app_assoc.
Qed.

(** The fields of the menu after a [hide] that is not ignored. *)
Lemma hide_fields e m :
  menu_inv m →
  hide_ignores e = false →
  timers (hide e m) = (timers m ++ [nextTimer m])%list
  ∧ nextTimer (hide e m) = S (nextTimer m)
  ∧ visibilityId (hide e m) = Some (nextTimer m)
  ∧ wasVisible (hide e m) = wasVisible m
  ∧ log (hide e m) = log m
  ∧ props (hide e m) = props m
  ∧ itemTracker (hide e m) = (if visible (state m) then ∅ else itemTracker m)
  ∧ menuController (hide e m) = menuController m
  ∧ nodeRef (hide e m) = None
  ∧ listeners m =
      (listeners (hide e m) ++ if visible (state m) then ownListeners else [])%list.
Proof.
  intros Hinv He.
  pose proof (hide_inv e m Hinv) as [Hnode' _].
  destruct Hinv as [_ (others & Hf & Hls)].
  assert (Hv' : visible (state (hide e m)) = false).
  { rewrite state_hide_event by done. apply visible_reducer_hide. }
  rewrite Hv' in Hnode'. simpl in Hnode'.
  unfold hide in *. rewrite He in *. cbv zeta in *. simpl in *.
  unfold setState in *.
  destruct (commit_fields (visible (state m)) (set_state (reducer (state m) hide_payload) m))
    as (-> & -> & _ & -> & -> & -> & ->).
  destruct (commit_env (visible (state m)) (set_state (reducer (state m) hide_payload) m))
    as (-> & _).
  destruct (commit_inv (visible (state m)) (set_state (reducer (state m) hide_payload) m)
              others Hf Hls) as [_ ->].
  change (state (set_state ?v ?m')) with v.
  rewrite visible_reducer_hide. simpl. rewrite app_nil_r.
  split_and!; try done.
  - by destruct (visible (state m)).
  - by destruct (visible (state m)).
Qed.

End MenuDynamics.

(** ** Menu: timeouts *)

Section MenuTimers.
Context {C : Type} `{!KeyboardController C}.
Implicit Type m : Menu C.

Lemma timers_inv_ext m m' :
  timers m' = timers m → nextTimer m' = nextTimer m → visibilityId m' = visibilityId m →
  timers_inv m → timers_inv m'.
Proof. unfold timers_inv. by intros -> -> ->. Qed.

Lemma filter_ne_fresh (n : nat) (l : list nat) :
  (∀ t, t ∈ l → (t < n)%nat) → filter (λ j, j ≠ n) l = l.
Proof.
  intros Hlt. induction l as [|t l IH]; [done|].
  rewrite filter_cons. destruct (decide (t ≠ n)) as [_|Heq].
  - f_equal. apply IH. intros t' Ht'. apply Hlt. by apply list_elem_of_further.
  - exfalso. apply Heq. intros ->.
    pose proof (Hlt n (list_elem_of_here _ _)). lia.
Qed.

Lemma timers_inv_filter m (v : nat) :
  timers_inv m →
  timers_inv (set_timers (filter (λ j, j ≠ v) (timers m)) (nextTimer m) m).
Proof.
  intros (Hnd & Hlt & Hvid). split_and!; simpl.
  - by apply NoDup_filter.
  - intros t Ht. apply list_elem_of_filter in Ht as [_ Ht]. by apply Hlt.
  - done.
Qed.

Lemma hide_timers_inv e m : menu_inv m → timers_inv m → timers_inv (hide e m).
Proof.
  intros Hinv (Hnd & Hlt & Hvid).
  destruct (hide_ignores e) eqn:He.
  { unfold hide. by rewrite He. }
  destruct (hide_fields e m Hinv He) as (Ht & Hn & Hv & _).
  unfold timers_inv. rewrite Ht, Hn, Hv. split_and!.
  - apply NoDup_app. split_and!; [done| |apply NoDup_singleton].
    intros t Hin ->%list_elem_of_singleton. apply Hlt in Hin. lia.
  - intros t [Hin| ->%list_elem_of_singleton]%elem_of_app; [|lia].
    apply Hlt in Hin. lia.
  - intros v [= <-]. lia.
Qed.

Lemma show_timers_inv params m : menu_inv m → timers_inv m → timers_inv (show params m).1.
Proof.
  intros Hinv Htm.
  destruct (requestedPosition params) as [p|err] eqn:Hp.
  - destruct (show_fields params m p Hinv Hp) as (Ht & Hn & Hv & _).
    destruct (visibilityId m) as [v|] eqn:Hvid.
    + eapply (timers_inv_ext (set_timers (filter (λ j, j ≠ v) (timers m)) (nextTimer m) m));
        [done|done|by rewrite Hv|by apply timers_inv_filter].
    + eapply timers_inv_ext; [exact Ht|exact Hn|by rewrite Hv, Hvid|done].
  - rewrite (show_throws _ _ err) by done. simpl.
    eapply timers_inv_ext; [..|exact Htm]; done.
Qed.

Lemma handleKeyboard_timers_inv e m :
  menu_inv m → timers_inv m → timers_inv (handleKeyboard e m).
Proof.
  intros Hinv Htm. unfold handleKeyboard.
  assert (Hprev : timers_inv (preventDefault e m)).
  { unfold preventDefault. destruct (preventDefaultOnKeydown _); [|done].
    eapply timers_inv_ext; [..|exact Htm]; done. }
  destruct (openSubmenu (menuController m)) as [opened c] eqn:Hopen.
  repeat case_match; simplify_eq;
    try (apply hide_timers_inv; [by apply set_menuController_inv|];
         eapply timers_inv_ext; [..|exact Htm]; done);
    try (by apply hide_timers_inv);
    try (eapply timers_inv_ext; [..|exact Hprev]; done);
    eapply timers_inv_ext; [..|exact Htm]; done.
Qed.

Lemma fireTimeout_timers_inv tid m : timers_inv m → timers_inv (fireTimeout tid m).
Proof.
  intros Htm. unfold fireTimeout. case_bool_decide; [|done].
  eapply (timers_inv_ext (set_timers (filter (λ j, j ≠ tid) (timers m)) (nextTimer m) m));
    [..|by apply timers_inv_filter]; by destruct (onVisibilityChange _).
Qed.

Lemma rerender_book p m :
  timers (rerender p m) = timers m
  ∧ nextTimer (rerender p m) = nextTimer m
  ∧ visibilityId (rerender p m) = visibilityId m
  ∧ wasVisible (rerender p m) = wasVisible m
  ∧ log (rerender p m) = log m.
Proof.
  unfold rerender. cbv zeta. case_bool_decide; [done|].
  by destruct (effect_dom_setup_book (effect_dom_cleanup (render (set_props p m))))
    as (-> & -> & -> & -> & -> & _).
Qed.

Lemma step_timers_inv a m : menu_inv m → timers_inv m → timers_inv (step a m).
Proof.
  intros Hinv Htm. destruct a as [params| |e|tid|p|w box|it n]; simpl.
  - by apply show_timers_inv.
  - by apply hide_timers_inv.
  - rewrite dispatchEvent_spec by done.
    repeat case_match; auto using handleKeyboard_timers_inv, hide_timers_inv.
  - by apply fireTimeout_timers_inv.
  - destruct (rerender_book p m) as (Ht & Hn & Hv & _).
    eapply timers_inv_ext; [exact Ht|exact Hn|exact Hv|done].
  - eapply timers_inv_ext; [..|exact Htm]; done.
  - eapply timers_inv_ext; [..|exact Htm]; done.
Qed.

Lemma reachable_timers_inv m : reachable m → timers_inv m.
Proof.
  induction 1 as [p c w box others|a m Hreach IH].
  - unfold mount, timers_inv; simpl. split_and!; [apply NoDup_nil_2| |done].
    intros t Ht. by apply elem_of_nil in Ht.
  - apply step_timers_inv; [by apply reachable_inv|done].
Qed.

End MenuTimers.

(** ** Menu: sequences of [show] and [hide] *)

Section MenuBehaviour.
Context {C : Type} `{!KeyboardController C}.
Implicit Type m : Menu C.

Lemma props_hide e m : props (hide e m) = props m.
Proof.
  unfold hide. destruct (hide_ignores e); [done|]. simpl. unfold setState.
  by destruct (commit_env (visible (state m))
                 (set_state (reducer (state m) hide_payload) m)) as (-> & _).
Qed.

Lemma log_hide e m : log (hide e m) = log m.
Proof.
  unfold hide. destruct (hide_ignores e); [done|]. simpl. unfold setState.
  by destruct (commit_fields (visible (state m))
                 (set_state (reducer (state m) hide_payload) m))
    as (_ & _ & _ & _ & -> & _).
Qed.

Lemma fireTimeout_pending tid m :
  tid ∈ timers m →
  log (fireTimeout tid m)
  = (log m ++ if onVisibilityChange (props m) then [VisibilityChange false] else [])%list
  ∧ wasVisible (fireTimeout tid m) = Some false
  ∧ state (fireTimeout tid m) = state m.
Proof.
  intros Hin. unfold fireTimeout. rewrite bool_decide_eq_true_2 by done. simpl.
  destruct (onVisibilityChange (props m)); simpl; by rewrite ?app_nil_r.
Qed.

(** X11: a [show] that follows a [hide] cancels the timeout that
    [hide] scheduled: the pending timeouts are those from before the
    [hide], and the cancelled one can no longer fire, so that
    [onVisibilityChange(false)] is not reported for it. *)
Theorem show_cancels_hide m (e : option Event) (params : ShowContextMenuParams)
    (p : Position) :
  reachable m →
  hide_ignores e = false →
  requestedPosition params = Ok p →
  visibilityId (hide e m) = Some (nextTimer m)
  ∧ nextTimer m ∈ timers (hide e m)
  ∧ timers (show params (hide e m)).1 = timers m
  ∧ fireTimeout (nextTimer m) (show params (hide e m)).1 = (show params (hide e m)).1.
Proof.
  intros Hreach He Hp.
  pose proof (reachable_inv m Hreach) as Hinv.
  destruct (reachable_timers_inv m Hreach) as (Hnd & Hlt & Hvid).
  destruct (hide_fields e m Hinv He) as (Ht & Hn & Hv & _).
  destruct (show_fields params (hide e m) p (hide_inv e m Hinv) Hp) as (Ht' & _).
  rewrite Hv, Ht in Ht'.
  assert (Htimers : timers (show params (hide e m)).1 = timers m).
  { rewrite Ht', filter_app, (filter_ne_fresh _ _ Hlt), filter_cons, filter_nil.
    rewrite decide_False by (intros Hne; by apply Hne). apply app_nil_r. }
  split_and!; try done.
  - rewrite Ht. set_solver.
  - unfold fireTimeout. rewrite bool_decide_eq_false_2; [done|].
    rewrite Htimers. intros Hin. apply Hlt in Hin. lia.
Qed.

(** X14: [show] then [hide] on a hidden menu is a round trip for
    what lives outside the state: the listeners on [window] are those
    from before, [nodeRef] is detached and the item tracker is empty.
    The state keeps the position, the trigger event and the props of
    the [show]; only [visible] is false again. *)
Theorem show_hide_round_trip m (e : option Event) (params : ShowContextMenuParams)
    (p : Position) :
  reachable m →
  visible (state m) = false →
  requestedPosition params = Ok p →
  hide_ignores e = false →
  listeners (hide e (show params m).1) = listeners m
  ∧ nodeRef (hide e (show params m).1) = None
  ∧ itemTracker (hide e (show params m).1) = ∅
  ∧ visible (state (hide e (show params m).1)) = false
  ∧ x (state (hide e (show params m).1)) = x (state (show params m).1)
  ∧ y (state (hide e (show params m).1)) = y (state (show params m).1)
  ∧ triggerEvent (state (hide e (show params m).1)) = event params
  ∧ propsFromTrigger (state (hide e (show params m).1)) = params_props params.
Proof.
  intros Hreach Hv Hp He.
  pose proof (reachable_inv m Hreach) as Hinv.
  pose proof (show_inv params m Hinv) as Hinv1.
  destruct (show_fields params m p Hinv Hp) as (_ & _ & _ & _ & _ & _ & _ & Hls1).
  destruct (show_spec params m p Hinv Hp) as (_ & Hst & _).
  rewrite Hv in Hls1.
  assert (Hv1 : visible (state (show params m).1) = true) by by rewrite Hst.
  destruct (hide_fields e _ Hinv1 He)
    as (_ & _ & _ & _ & _ & _ & Htr & _ & Hnode & Hls).
  rewrite Hv1 in Htr, Hls. rewrite Hls1 in Hls.
  apply app_inv_tail in Hls.
  rewrite state_hide_event by done.
  destruct (reducer_hide_frame (state (show params m).1)) as (-> & -> & -> & -> & _).
  rewrite visible_reducer_hide, Hst. done.
Qed.


End MenuBehaviour.

Lemma show_cancels_hide_witness :
  timers (show showAtEdge (hide None shownMenu)).1 = timers shownMenu.
Proof.
  pose proof (show_cancels_hide shownMenu None showAtEdge
                (mkPosition (JNum 1000) (JNum 0))
                (reachable_step _ _ (reachable_mount _ _ _ _ _)) eq_refl eq_refl)
    as (_ & _ & H & _).
  exact H.
Defined.

Lemma show_hide_round_trip_witness :
  listeners (hide None (show showAtEdge sampleMenu).1) = listeners sampleMenu.
Proof.
  pose proof (show_hide_round_trip sampleMenu None showAtEdge
                (mkPosition (JNum 1000) (JNum 0)) (reachable_mount _ _ _ _ _)
                eq_refl eq_refl eq_refl)
    as (H & _).
  exact H.
Defined.


(** ** Menu: renders, unmount and events *)

Section MenuEvents.
Context {C : Type} `{!KeyboardController C}.
Implicit Type m : Menu C.

Lemma log_setState payload m : log (setState payload m) = log m.
Proof.
  unfold setState.
  by destruct (commit_fields (visible (state m)) (set_state (reducer (state m) payload) m))
    as (_ & _ & _ & _ & -> & _).
Qed.

(** X16: rendering the menu again with other props keeps the state
    and the pending timeouts, and, even when the effect on the DOM
    events runs again because [preventDefaultOnKeydown] changed, leaves
    on [window] the same listeners: the same registrations are there,
    those of the menu in the order of the effect and those of other
    code in their own order. *)
Theorem rerender_keeps_listeners m (p : MenuProps) :
  reachable m →
  (∀ r, r ∈ listeners (rerender p m) ↔ r ∈ listeners m)
  ∧ filter (λ r, r ∈ ownListeners) (listeners (rerender p m))
    = filter (λ r, r ∈ ownListeners) (listeners m)
  ∧ filter (λ r, r ∉ ownListeners) (listeners (rerender p m))
    = filter (λ r, r ∉ ownListeners) (listeners m)
  ∧ state (rerender p m) = state m
  ∧ timers (rerender p m) = timers m
  ∧ props (rerender p m) = p.
Proof.
  intros Hreach. destruct (reachable_inv m Hreach) as [_ (others & Hf & Hls)].
  destruct (rerender_book p m) as (Ht & _).
  assert (Heq : listeners (rerender p m) = listeners m).
  { unfold rerender. cbv zeta. case_bool_decide; [done|].
    unfold effect_dom_setup, effect_dom_cleanup.
    change (state (set_listeners ?v ?m')) with (state m').
    change (listeners (set_listeners ?v ?m')) with v.
    change (listeners (render ?m')) with (listeners m').
    change (listeners (set_props ?v ?m')) with (listeners m').
    change (state (render ?m')) with (state m').
    change (state (set_props ?v ?m')) with (state m').
    rewrite Hls.
    pose proof (cleanup_listeners others (visible (state m)) Hf) as Hc.
    pose proof (setup_listeners others Hf) as Hs.
    destruct (visible (state m)).
    + change (listeners (set_listeners ?v ?m')) with v. by rewrite Hc, Hs.
    + by rewrite Hc, app_nil_r. }
  rewrite Heq.
  split_and!; [done|done|done|apply state_rerender|exact Ht|].
  unfold rerender. cbv zeta. case_bool_decide; [done|].
  by destruct (effect_dom_setup_env (effect_dom_cleanup (render (set_props p m))))
    as (-> & _).
Qed.

Lemma log_handleKeyboard m (e : Event) :
  log (handleKeyboard e m)
  = (log m ++ if preventDefaultOnKeydown (props m) && bool_decide (key e ∈ arrowKeys)
              then [PreventDefault e] else [])%list.
Proof.
  assert (Hhide : ∀ m', log (hide None m') = log m') by (intros; apply log_hide).
  unfold handleKeyboard, arrowKeys. cbv zeta.
  destruct (openSubmenu (menuController m)) as [opened c].
  destruct (decide (key e = "Enter")) as [Hk|H1].
  { rewrite Hk. cbn [bool_decide decide_rel orb].
    rewrite andb_false_r, app_nil_r. destruct opened; simpl; [done|].
    rewrite log_setState. done. }
  destruct (decide (key e = " ")) as [Hk|H2].
  { rewrite Hk. cbn [bool_decide decide_rel orb].
    rewrite andb_false_r, app_nil_r. destruct opened; simpl; [done|].
    rewrite log_setState. done. }
  rewrite (bool_decide_eq_false_2 (key e = "Enter")) by done.
  rewrite (bool_decide_eq_false_2 (key e = " ")) by done.
  cbn [orb].
  destruct (decide (key e = "Escape")) as [Hk|H3].
  { rewrite Hk. simpl.
    rewrite ?Hhide, ?log_setState, andb_false_r, app_nil_r. done. }
  rewrite (bool_decide_eq_false_2 (key e = "Escape")) by done.
  unfold preventDefault.
  repeat case_bool_decide; simplify_eq;
    try (destruct (preventDefaultOnKeydown (props m)); simpl; by rewrite ?app_nil_r);
    exfalso; set_solver.
Qed.

(** X18: the keyboard handler prevents the default action for the
    four arrow keys, when [preventDefaultOnKeydown] is set, and for no
    other key; it reports nothing else to the outside. *)
Theorem handleKeyboard_preventDefault m (e : Event) :
  log (handleKeyboard e m)
  = (log m ++ if preventDefaultOnKeydown (props m) && bool_decide (key e ∈ arrowKeys)
              then [PreventDefault e] else [])%list
  ∧ visibilityReports (log (handleKeyboard e m)) = visibilityReports (log m).
Proof.
  rewrite log_handleKeyboard. split; [done|].
  unfold visibilityReports. rewrite omap_app.
  destruct (_ && _); simpl; by rewrite app_nil_r.
Qed.

(** X19: on a visible menu a window [click] made with the right
    button or with ctrl does nothing at all, while a [contextmenu]
    event hides the menu whatever its button and removes the menu's
    listeners; on a hidden menu no window event does anything. *)
Theorem window_events_guard m (e : Event) :
  reachable m →
  (visible (state m) = false → dispatchEvent e m = m)
  ∧ (visible (state m) = true →
     type e = "click" →
     button e = JNum 2 ∨ ctrlKey e = true →
     dispatchEvent e m = m)
  ∧ (visible (state m) = true →
     type e = "contextmenu" →
     visible (state (dispatchEvent e m)) = false
     ∧ ∀ r, r ∈ ownListeners → r ∉ listeners (dispatchEvent e m)).
Proof.
  intros Hreach. pose proof (reachable_inv m Hreach) as Hinv.
  rewrite dispatchEvent_spec by done. split_and!.
  - by intros ->.
  - intros -> Hty Hbtn.
    rewrite decide_False by (rewrite Hty; discriminate).
    rewrite decide_True by (rewrite Hty; set_solver).
    assert (Hig : hide_ignores (Some e) = true).
    { apply hide_ignores_spec. exists e. split_and!; [done|done|].
      rewrite Hty. discriminate. }
    unfold hide. by rewrite Hig.
  - intros -> Hty.
    rewrite decide_False by (rewrite Hty; discriminate).
    rewrite decide_True by (rewrite Hty; set_solver).
    assert (Hig : hide_ignores (Some e) = false).
    { simpl. rewrite Hty. simpl. apply andb_false_r. }
    assert (Hv : visible (state (hide (Some e) m)) = false).
    { rewrite state_hide_event by done. apply visible_reducer_hide. }
    split; [done|]. intros r Hr Hin.
    apply (menu_inv_listeners _ r (hide_inv _ _ Hinv) Hr) in Hin. congruence.
Qed.

(** X20: [show] without an explicit position reads the coordinates of
    the trigger event, so a touch event with an empty [changedTouches]
    makes it throw: the event's propagation is stopped and nothing else
    changes.  With an explicit position the event is not read and
    [show] goes through. *)
Theorem show_empty_touches m (params : ShowContextMenuParams) :
  changedTouches (event params) = Some [] →
  (position params = None →
     ∃ err, show params m = (emit_effect (StopPropagation (event params)) m, Some err)
       ∧ state (show params m).1 = state m
       ∧ listeners (show params m).1 = listeners m
       ∧ timers (show params m).1 = timers m)
  ∧ (∀ p, position params = Some p → menu_inv m →
       (show params m).2 = None ∧ visible (state (show params m).1) = true).
Proof.
  intros Htouch. split.
  - intros Hpos.
    assert (Hp : ∃ err, requestedPosition params = Throw err).
    { unfold requestedPosition, getMousePosition, readCoordinates.
      rewrite Hpos, Htouch. simpl. by eexists. }
    destruct Hp as [err Hp]. exists err.
    by rewrite (show_throws params m err Hp).
  - intros p Hpos Hinv.
    assert (Hp : requestedPosition params = Ok p).
    { unfold requestedPosition. by rewrite Hpos. }
    destruct (show_spec params m p Hinv Hp) as (Hok & Hst & _).
    split; [done|]. by rewrite Hst.
Qed.

End MenuEvents.

(** ** Menu: the reports of visibility *)

Lemma noRepeatedTrue_snoc_false (l : list bool) :
  noRepeatedTrue l → noRepeatedTrue (l ++ [false]).
Proof.
  intros Hl l1 l2 Heq. destruct l2 as [|z l2 _] using rev_ind.
  - change (l1 ++ [true; true])%list with (l1 ++ [true] ++ [true])%list in Heq.
    rewrite (assoc_L (++)) in Heq. by apply app_inj_tail in Heq as [_ ?].
  - change (l1 ++ true :: true :: l2 ++ [z])%list
      with (l1 ++ (true :: true :: l2) ++ [z])%list in Heq.
    rewrite (assoc_L (++)) in Heq. apply app_inj_tail in Heq as [Heq _].
    by eapply Hl.
Qed.

Lemma noRepeatedTrue_snoc_true (l : list bool) :
  noRepeatedTrue l → last l ≠ Some true → noRepeatedTrue (l ++ [true]).
Proof.
  intros Hl Hlast l1 l2 Heq. destruct l2 as [|z l2 _] using rev_ind.
  - change (l1 ++ [true; true])%list with (l1 ++ [true] ++ [true])%list in Heq.
    rewrite (assoc_L (++)) in Heq. apply app_inj_tail in Heq as [Heq _].
    apply Hlast. rewrite Heq. apply last_snoc.
  - change (l1 ++ true :: true :: l2 ++ [z])%list
      with (l1 ++ (true :: true :: l2) ++ [z])%list in Heq.
    rewrite (assoc_L (++)) in Heq. apply app_inj_tail in Heq as [Heq _].
    by eapply Hl.
Qed.

Section MenuReports.
Context {C : Type} `{!KeyboardController C}.
Implicit Type m : Menu C.

Lemma reports_inv_ext m m' :
  props m' = props m → log m' = log m → wasVisible m' = wasVisible m →
  reports_inv m → reports_inv m'.
Proof. unfold reports_inv. by intros -> -> ->. Qed.

Lemma reports_inv_silent m m' (l : list Effect) :
  props m' = props m → log m' = (log m ++ l)%list → visibilityReports l = [] →
  wasVisible m' = wasVisible m →
  reports_inv m → reports_inv m'.
Proof.
  unfold reports_inv. intros -> Hlog Hl ->.
  rewrite Hlog. unfold visibilityReports in *. by rewrite omap_app, Hl, app_nil_r.
Qed.

Lemma wasVisible_hide e m : wasVisible (hide e m) = wasVisible m.
Proof.
  unfold hide. destruct (hide_ignores e); [done|]. simpl. unfold setState.
  by destruct (commit_fields (visible (state m))
                 (set_state (reducer (state m) hide_payload) m))
    as (_ & _ & _ & -> & _).
Qed.

Lemma hide_reports_inv e m : reports_inv m → reports_inv (hide e m).
Proof.
  apply reports_inv_ext; [apply props_hide|apply log_hide|apply wasVisible_hide].
Qed.

Lemma handleKeyboard_book e m :
  props (handleKeyboard e m) = props m
  ∧ wasVisible (handleKeyboard e m) = wasVisible m.
Proof.
  unfold handleKeyboard, preventDefault.
  destruct (openSubmenu (menuController m)) as [opened c].
  repeat case_match; rewrite ?props_hide, ?wasVisible_hide; done.
Qed.

Lemma handleKeyboard_reports_inv e m : reports_inv m → reports_inv (handleKeyboard e m).
Proof.
  destruct (handleKeyboard_book e m) as [Hp Hw].
  eapply reports_inv_silent; [exact Hp|apply log_handleKeyboard| |exact Hw].
  by destruct (_ && _).
Qed.

Lemma show_reports_inv params m : menu_inv m → reports_inv m → reports_inv (show params m).1.
Proof.
  intros Hinv (Hfn & Hno & Hlast).
  destruct (requestedPosition params) as [p|err] eqn:Hp.
  - destruct (show_fields params m p Hinv Hp) as (_ & _ & _ & Hlog & Hwas & _).
    destruct (show_spec params m p Hinv Hp) as (_ & _ & Hpr & _).
    unfold reports_inv. rewrite Hpr, Hlog, Hwas, Hfn, andb_true_r.
    unfold visibilityReports in *. rewrite omap_app. simpl.
    destruct (negb (default false (wasVisible m))) eqn:Hfalsy; simpl.
    + split_and!; [done| |done].
      apply noRepeatedTrue_snoc_true; [done|].
      intros Ht. apply Hlast in Ht. by rewrite Ht in Hfalsy.
    + rewrite app_nil_r. done.
  - rewrite (show_throws _ _ err) by done. simpl.
    eapply (reports_inv_silent m _ [StopPropagation (event params)]); done.
Qed.

Lemma fireTimeout_reports_inv tid m : reports_inv m → reports_inv (fireTimeout tid m).
Proof.
  intros (Hfn & Hno & Hlast).
  destruct (decide (tid ∈ timers m)) as [Hin|Hout].
  - destruct (fireTimeout_pending tid m Hin) as (Hlog & Hwas & _).
    assert (Hpr : props (fireTimeout tid m) = props m).
    { unfold fireTimeout. rewrite bool_decide_eq_true_2 by done. simpl.
      by destruct (onVisibilityChange (props m)). }
    unfold reports_inv. rewrite Hpr, Hlog, Hwas, Hfn.
    unfold visibilityReports in *. rewrite omap_app. simpl.
    split_and!; [done|by apply noRepeatedTrue_snoc_false|].
    by rewrite last_snoc.
  - unfold fireTimeout. by rewrite bool_decide_eq_false_2.
Qed.

Lemma step_reports_inv a m :
  menu_inv m → keepsCallback a → reports_inv m → reports_inv (step a m).
Proof.
  intros Hinv Hkeep Hrep. destruct a as [params| |e|tid|p|w box|it n]; simpl.
  - by apply show_reports_inv.
  - by apply hide_reports_inv.
  - rewrite dispatchEvent_spec by done.
    repeat case_match; auto using handleKeyboard_reports_inv, hide_reports_inv.
  - by apply fireTimeout_reports_inv.
  - destruct (rerender_book p m) as (_ & _ & _ & Hw & Hl).
    destruct Hrep as (_ & Hno & Hlast). unfold reports_inv. rewrite Hl, Hw.
    split; [|done]. simpl in Hkeep.
    unfold rerender. cbv zeta. case_bool_decide; [done|].
    by destruct (effect_dom_setup_env (effect_dom_cleanup (render (set_props p m))))
      as (-> & _).
  - eapply reports_inv_ext; [..|exact Hrep]; done.
  - eapply reports_inv_ext; [..|exact Hrep]; done.
Qed.

Lemma run_reports_inv acts m :
  reachable m → Forall keepsCallback acts → reports_inv m →
  reports_inv (run acts m).
Proof.
  unfold run. revert m.
  induction acts as [|a acts IH]; intros m Hreach Hkeep Hrep; simpl; [done|].
  apply Forall_cons in Hkeep as [Ha Hkeep].
  apply IH; [by apply reachable_step|done|].
  apply step_reports_inv; [by apply reachable_inv|done|done].
Qed.

(** X21: as long as [onVisibilityChange] stays a function, from the
    mount on and through any sequence of shows, hides, window events,
    timeouts and renders, [onVisibilityChange(true)] is never reported
    twice in a row: between two such reports there is a report
    [false]. *)
Theorem visibility_reported_once (p : MenuProps) (c : C) (w : Window) (box : MenuNode)
    (others : list (string * nat)) (acts : list Action) :
  onVisibilityChange p = true →
  Forall keepsCallback acts →
  noRepeatedTrue (visibilityReports (log (run acts (mount p c w box others))))
  ∧ (last (visibilityReports (log (run acts (mount p c w box others)))) = Some true →
     wasVisible (run acts (mount p c w box others)) = Some true).
Proof.
  intros Hfn Hkeep.
  apply (run_reports_inv acts (mount p c w box others)); [apply reachable_mount|done|].
  unfold reports_inv, mount; simpl. split_and!; [done| |done].
  intros l1 l2 Heq. by destruct l1.
Qed.

End MenuReports.

(** ** Menu: the timeouts that report a hidden menu *)

Lemma filter_all {A : Type} (P : A → Prop) `{!∀ a, Decision (P a)} (l : list A) :
  Forall P l → filter P l = l.
Proof.
  induction 1 as [|a l Ha _ IH]; [done|].
  by rewrite filter_cons_True, IH.
Qed.

Lemma filter_none {A : Type} (P : A → Prop) `{!∀ a, Decision (P a)} (l : list A) :
  Forall (λ a, ¬ P a) l → filter P l = [].
Proof.
  induction 1 as [|a l Ha _ IH]; [done|].
  by rewrite filter_cons_False.
Qed.

Section MenuTimeouts.
Context {C : Type} `{!KeyboardController C}.
Implicit Type m : Menu C.

Lemma run_reachable acts m : reachable m → reachable (run acts m).
Proof.
  unfold run. revert m. induction acts as [|a acts IH]; intros m Hreach; simpl; [done|].
  apply IH. by apply reachable_step.
Qed.

Lemma callbackKept_spec m :
  callbackKept m → reachable m ∧ onVisibilityChange (props m) = true.
Proof.
  intros (p & c & w & box & others & acts & Hfn & Hkeep & ->). split.
  - apply run_reachable, reachable_mount.
  - assert (Hrep : reports_inv (run acts (mount p c w box others))); [|by destruct Hrep].
    apply run_reports_inv; [apply reachable_mount|done|].
    unfold reports_inv, mount; simpl. split_and!; [done| |done].
    intros l1 l2 Heq. by destruct l1.
Qed.

(** X12: only the last [hide] is cancelled.  After two [hide]s and a
    [show] the timeout of the first [hide] is still pending; when it
    fires the menu stays visible, yet [wasVisible] is reset and, for a
    menu whose [onVisibilityChange] has been a function since the
    mount, [onVisibilityChange(false)] is reported. *)
Theorem show_keeps_earlier_timeout m (e1 e2 : option Event)
    (params : ShowContextMenuParams) (p : Position) :
  callbackKept m →
  hide_ignores e1 = false →
  hide_ignores e2 = false →
  requestedPosition params = Ok p →
  timers (show params (hide e2 (hide e1 m))).1 = (timers m ++ [nextTimer m])%list
  ∧ visible (state (show params (hide e2 (hide e1 m))).1) = true
  ∧ visible (state (fireTimeout (nextTimer m) (show params (hide e2 (hide e1 m))).1))
    = true
  ∧ wasVisible (fireTimeout (nextTimer m) (show params (hide e2 (hide e1 m))).1)
    = Some false
  ∧ log (fireTimeout (nextTimer m) (show params (hide e2 (hide e1 m))).1)
    = (log (show params (hide e2 (hide e1 m))).1 ++ [VisibilityChange false])%list.
Proof.
  intros [Hreach Hfn]%callbackKept_spec He1 He2 Hp.
  pose proof (reachable_inv m Hreach) as Hinv.
  destruct (reachable_timers_inv m Hreach) as (Hnd & Hlt & Hvid).
  pose proof (hide_inv e1 m Hinv) as Hinv1.
  pose proof (hide_inv e2 _ Hinv1) as Hinv2.
  destruct (hide_fields e1 m Hinv He1) as (Ht1 & Hn1 & Hv1 & _).
  destruct (hide_fields e2 _ Hinv1 He2) as (Ht2 & Hn2 & Hv2 & _).
  destruct (show_fields params _ p Hinv2 Hp) as (Ht' & _).
  destruct (show_spec params _ p Hinv2 Hp) as (_ & Hst & Hpr & _).
  rewrite Hv2, Ht2, Hn1, Ht1 in Ht'.
  assert (Htimers : timers (show params (hide e2 (hide e1 m))).1
                    = (timers m ++ [nextTimer m])%list).
  { rewrite Ht', filter_app, filter_cons, filter_nil.
    rewrite decide_False by (intros Hne; by apply Hne). rewrite app_nil_r.
    apply filter_ne_fresh.
    intros t [Hin| ->%list_elem_of_singleton]%elem_of_app; [|lia].
    apply Hlt in Hin. lia. }
  assert (Hpending : nextTimer m ∈ timers (show params (hide e2 (hide e1 m))).1).
  { rewrite Htimers. set_solver. }
  destruct (fireTimeout_pending _ _ Hpending) as (Hlog & Hwas & Hstate).
  rewrite Hstate, Hlog, Hwas, Hpr, !props_hide, Hst, Hfn. done.
Qed.

(** X13: hiding a menu that is not visible leaves its state, its
    listeners, its tracker and its controller as they are, and still
    schedules a timeout; when that fires, a menu whose
    [onVisibilityChange] has been a function since the mount reports
    [onVisibilityChange(false)], also when it was never shown. *)
Theorem hide_when_hidden m (e : option Event) :
  callbackKept m →
  visible (state m) = false →
  hide_ignores e = false →
  state (hide e m) = state m
  ∧ listeners (hide e m) = listeners m
  ∧ itemTracker (hide e m) = itemTracker m
  ∧ menuController (hide e m) = menuController m
  ∧ timers (hide e m) = (timers m ++ [nextTimer m])%list
  ∧ wasVisible (fireTimeout (nextTimer m) (hide e m)) = Some false
  ∧ log (fireTimeout (nextTimer m) (hide e m)) = (log m ++ [VisibilityChange false])%list.
Proof.
  intros [Hreach Hfn]%callbackKept_spec Hv He.
  pose proof (reachable_inv m Hreach) as Hinv.
  destruct (hide_fields e m Hinv He)
    as (Ht & _ & _ & _ & Hlog & Hpr & Htr & Hc & _ & Hls).
  rewrite Hv in Htr, Hls. rewrite app_nil_r in Hls.
  assert (Hpending : nextTimer m ∈ timers (hide e m)) by (rewrite Ht; set_solver).
  destruct (fireTimeout_pending _ _ Hpending) as (Hlog' & Hwas & _).
  rewrite Hlog', Hlog, Hpr, Hfn. split_and!; try done.
  rewrite state_hide_event by done. by apply reducer_hide_frame.
Qed.

(** X17: unmounting removes from [window] the listeners of the menu,
    all of them and nothing else, so that no window event reaches the
    menu any more; it does not clear the pending timeouts, which still
    fire: on a menu whose [onVisibilityChange] has been a function
    since the mount they report [onVisibilityChange(false)] after the
    unmount. *)
Theorem unmount_removes_listeners m (e : Event) (tid : nat) :
  callbackKept m →
  (∀ r, r ∈ listeners m ↔
        r ∈ listeners (unmount m) ∨ (visible (state m) = true ∧ r ∈ ownListeners))
  ∧ (∀ r, r ∈ ownListeners → r ∉ listeners (unmount m))
  ∧ filter (λ r, r ∉ ownListeners) (listeners m) = listeners (unmount m)
  ∧ dispatchEvent e (unmount m) = unmount m
  ∧ timers (unmount m) = timers m
  ∧ (tid ∈ timers m →
     log (fireTimeout tid (unmount m)) = (log m ++ [VisibilityChange false])%list).
Proof.
  intros [Hreach Hfn]%callbackKept_spec.
  destruct (reachable_inv m Hreach) as [_ (others & Hf & Hls)].
  assert (Hun : listeners (unmount m) = others).
  { unfold unmount, effect_dom_cleanup.
    change (listeners (set_listeners ?v ?m')) with v.
    rewrite Hls. by apply cleanup_listeners. }
  assert (Hothers : filter (λ r, r ∉ ownListeners) others = others).
  { apply filter_all. apply Forall_forall. intros r Hr Hown.
    by apply (own_not_foreign r others Hown Hf). }
  split_and!.
  - intros r. rewrite Hun, Hls, elem_of_app.
    destruct (visible (state m)); set_solver.
  - intros r Hr. rewrite Hun. by apply own_not_foreign.
  - rewrite Hun, Hls, filter_app, Hothers.
    destruct (visible (state m)); [|by rewrite filter_nil, app_nil_r].
    rewrite (filter_none (λ r, r ∉ ownListeners) ownListeners), app_nil_r; [done|].
    apply Forall_forall. intros r Hr Hn. done.
  - unfold dispatchEvent. rewrite Hun. apply foreign_dispatch.
    by apply foreign_filter.
  - done.
  - intros Hin. destruct (fireTimeout_pending tid (unmount m) Hin) as (-> & _).
    change (props (unmount m)) with (props m). change (log (unmount m)) with (log m).
    by rewrite Hfn.
Qed.

End MenuTimeouts.

Lemma shownMenu_callbackKept : callbackKept shownMenu.
Proof.
  exists sampleProps, (mkRecorder false []), (mkWindow 800 600), (mkMenuNode 200 100),
    [("click", 7%nat)], [ActShow (mkShowParams (rightClick 100 100) AnyNull None)].
  split; [reflexivity|]. split; [by repeat constructor|].
  unfold run. cbn [foldl]. reflexivity.
Defined.

Lemma sampleMenu_callbackKept : callbackKept sampleMenu.
Proof.
  exists sampleProps, (mkRecorder false []), (mkWindow 800 600), (mkMenuNode 200 100),
    [("click", 7%nat)], [].
  split; [reflexivity|]. split; [constructor|].
  unfold run. cbn [foldl]. reflexivity.
Defined.

Lemma show_keeps_earlier_timeout_witness :
  timers (show showAtEdge (hide None (hide None shownMenu))).1 = [1%nat]
  ∧ visible
      (state (fireTimeout 1 (show showAtEdge (hide None (hide None shownMenu))).1))
    = true.
Proof.
  pose proof (show_keeps_earlier_timeout shownMenu None None showAtEdge
                (mkPosition (JNum 1000) (JNum 0))
                shownMenu_callbackKept eq_refl eq_refl eq_refl)
    as (Ht & _ & Hv & _).
  split; [exact Ht|exact Hv].
Defined.

Lemma hide_when_hidden_witness :
  log (fireTimeout 1 (hide None sampleMenu)) = [VisibilityChange false].
Proof.
  pose proof (hide_when_hidden sampleMenu None sampleMenu_callbackKept eq_refl eq_refl)
    as (_ & _ & _ & _ & _ & _ & H).
  exact H.
Defined.

Lemma unmount_removes_listeners_witness :
  listeners (unmount shownMenu) = [("click", ListenOther 7)]
  ∧ timers (unmount (hide None shownMenu)) = [1%nat].
Proof.
  pose proof (unmount_removes_listeners shownMenu (rightClick 1 1) 0%nat
                shownMenu_callbackKept) as (_ & _ & H & _).
  assert (Hk : callbackKept (hide None shownMenu)).
  { exists sampleProps, (mkRecorder false []), (mkWindow 800 600), (mkMenuNode 200 100),
      [("click", 7%nat)],
      [ActShow (mkShowParams (rightClick 100 100) AnyNull None); ActHideAll].
    split; [reflexivity|]. split; [by repeat constructor|].
    unfold run. cbn [foldl]. reflexivity. }
  pose proof (unmount_removes_listeners (hide None shownMenu) (rightClick 1 1) 0%nat Hk)
    as (_ & _ & _ & _ & Ht & _).
  split; [|exact Ht].
  rewrite <- H. reflexivity.
Defined.

(** ** What the menu renders *)

Lemma cloneItems_again (children : list (option ItemProps)) (e1 e2 : Event)
    (pr1 pr2 : any) :
  cloneItems (Some <$> cloneItems children e1 pr1) e2 pr2 = cloneItems children e2 pr2.
Proof.
  unfold cloneItems.
  assert (Hsome : ∀ l : list ItemProps, omap (λ c, c) (Some <$> l) = l).
  { induction l as [|a l IH]; [done|]. simpl. f_equal. exact IH. }
  rewrite Hsome, <- list_fmap_compose.
  apply list_fmap_ext. by intros i [].
Qed.

Lemma length_cloneItems (children : list (option ItemProps)) (e : Event) (pr : any) :
  (length (cloneItems children e pr) ≤ length children)%nat.
Proof.
  unfold cloneItems. rewrite length_fmap.
  induction children as [|[c|] cs IH]; simpl.
  - done.
  - apply le_n_S. exact IH.
  - apply le_S. exact IH.
Qed.

Section MenuRender.
Context {C : Type} `{!KeyboardController C}.
Implicit Type m : Menu C.

(** X22: after a [show], the menu renders its children, without the
    [null] ones and in order, each cloned with the trigger event and
    the props of that [show]: the [disabled] predicate of an item is
    evaluated on them, not on those of an earlier [show].  Cloning
    again replaces them, and a menu that is not visible, as after a
    [hide], renders no item. *)
Theorem rendered_items m (params : ShowContextMenuParams) (p : Position)
    (children : list (option ItemProps)) :
  reachable m →
  requestedPosition params = Ok p →
  renderedItems (show params m).1 children
  = cloneItems children (event params) (params_props params)
  ∧ (length (renderedItems (show params m).1 children) ≤ length children)%nat
  ∧ (∀ i c, omap (λ c, c) children !! i = Some c →
       ∃ it, renderedItems (show params m).1 children !! i = Some it
         ∧ item_triggerEvent it = event params
         ∧ item_propsFromTrigger it = params_props params
         ∧ isDisabled it
           = getPredicateValue (disabled c)
               (mkItemParams (item_id c) (data c) (event params)
                  (params_props params) None))
  ∧ (∀ e, hide_ignores e = false →
       renderedItems (hide e (show params m).1) children = [])
  ∧ (∀ e1 pr1,
       cloneItems (Some <$> cloneItems children e1 pr1)
         (event params) (params_props params)
       = renderedItems (show params m).1 children).
Proof.
  intros Hreach Hp. pose proof (reachable_inv m Hreach) as Hinv.
  destruct (show_spec params m p Hinv Hp) as (_ & Hst & _).
  assert (Hren : renderedItems (show params m).1 children
                 = cloneItems children (event params) (params_props params)).
  { unfold renderedItems. by rewrite Hst. }
  rewrite Hren. split_and!.
  - done.
  - apply length_cloneItems.
  - intros i c Hc. exists (cloneItem (event params) (params_props params) c).
    split; [|done]. unfold cloneItems. by rewrite list_lookup_fmap, Hc.
  - intros e He. unfold renderedItems.
    rewrite state_hide_event by done. by rewrite visible_reducer_hide.
  - intros e1 pr1. apply cloneItems_again.
Qed.

End MenuRender.

Lemma rendered_items_witness :
  renderedItems (show showAtEdge sampleMenu).1 [None; Some (item_props sampleItem)]
  = cloneItems [None; Some (item_props sampleItem)] (rightClick 100 100) AnyNull.
Proof.
  pose proof (rendered_items sampleMenu showAtEdge (mkPosition (JNum 1000) (JNum 0))
                [None; Some (item_props sampleItem)] (reachable_mount _ _ _ _ _) eq_refl)
    as (H & _).
  exact H.
Defined.

Lemma visibility_reported_once_witness :
  noRepeatedTrue
    (visibilityReports
       (log (run [ActShow showAtEdge; ActShow showAtEdge] sampleMenu))).
Proof.
  pose proof (visibility_reported_once sampleProps (mkRecorder false [])
                (mkWindow 800 600) (mkMenuNode 200 100) [("click", 7%nat)]
                [ActShow showAtEdge; ActShow showAtEdge] eq_refl) as H.
  apply H. repeat constructor.
Defined.

Lemma rerender_keeps_listeners_witness :
  filter (λ r, r ∈ ownListeners)
    (listeners (rerender (mkMenuProps (KStr "menu") false false false true) shownMenu))
  = filter (λ r, r ∈ ownListeners) (listeners shownMenu).
Proof.
  pose proof (rerender_keeps_listeners shownMenu
                (mkMenuProps (KStr "menu") false false false true)
                (reachable_step _ _ (reachable_mount _ _ _ _ _))) as (_ & H & _).
  exact H.
Defined.

Lemma window_events_guard_witness :
  dispatchEvent (mouseEvent "click" (JNum 1) (JNum 1) 2 false) shownMenu = shownMenu
  ∧ visible (state (dispatchEvent (rightClick 1 1) shownMenu)) = false.
Proof.
  pose proof (window_events_guard shownMenu (mouseEvent "click" (JNum 1) (JNum 1) 2 false)
                (reachable_step _ _ (reachable_mount _ _ _ _ _))) as (_ & Hclick & _).
  pose proof (window_events_guard shownMenu (rightClick 1 1)
                (reachable_step _ _ (reachable_mount _ _ _ _ _))) as (_ & _ & Hctx).
  split.
  - apply Hclick; [reflexivity|reflexivity|by left].
  - apply Hctx; reflexivity.
Defined.

Lemma show_empty_touches_witness :
  ∃ err,
    (show (mkShowParams (touchEvent "touchstart" []) AnyNull None) sampleMenu).2
    = Some err.
Proof.
  destruct (show_empty_touches sampleMenu
              (mkShowParams (touchEvent "touchstart" []) AnyNull None) eq_refl)
    as [Hthrow _].
  destruct (Hthrow eq_refl) as (err & Heq & _).
  exists err. by rewrite Heq.
Defined.

(** ** The application: what emitting an event does *)

Lemma subscriptions_inv_empty : subscriptions_inv ∅ ∅.
Proof.
  split; [intros k; unfold emit; rewrite lookup_empty; apply NoDup_nil_2|].
  intros k h. unfold emit. rewrite lookup_empty. simpl. split.
  - intros Hin. by apply elem_of_nil in Hin.
  - intros (inst & m & Hm & _). by rewrite lookup_empty in Hm.
Qed.

Lemma subscriptions_inv_mount eventList ids inst m :
  ids !! inst = None →
  subscriptions_inv eventList ids →
  subscriptions_inv (subscribe inst m eventList) (<[inst := m]> ids).
Proof.
  intros Hfresh [IHnd IH]. split.
  { intros k. unfold subscribe. apply NoDup_emit_on. intros k'.
    by apply NoDup_emit_on. }
  intros k h. unfold subscribe. rewrite !emit_on, IH. split.
  - intros [[-> ->]|[[-> ->]|(inst' & m' & Hm' & Hh)]].
    + exists inst, m. rewrite lookup_insert_eq. naive_solver.
    + exists inst, m. rewrite lookup_insert_eq. naive_solver.
    + exists inst', m'. split; [|done].
      rewrite lookup_insert_ne; [done|]. intros ->. congruence.
  - intros (inst' & m' & Hm' & Hh).
    destruct (decide (inst' = inst)) as [->|Hne].
    + rewrite lookup_insert_eq in Hm'. naive_solver.
    + rewrite lookup_insert_ne in Hm' by done. naive_solver.
Qed.

Lemma subscriptions_inv_unmount eventList ids inst m :
  ids !! inst = Some m →
  subscriptions_inv eventList ids →
  subscriptions_inv (unsubscribe inst m eventList) (delete inst ids).
Proof.
  intros Hmounted [IHnd IH]. split.
  { intros k. unfold unsubscribe. apply NoDup_emit_off. intros k'.
    by apply NoDup_emit_off. }
  intros k h. unfold unsubscribe. rewrite !emit_off, IH. split.
  - intros [[(inst' & m' & Hm' & Hh) Hshow] Hhide].
    exists inst', m'. split; [|done].
    rewrite lookup_delete_ne; [done|]. intros ->. naive_solver.
  - intros (inst' & m' & Hm' & Hh).
    destruct (decide (inst' = inst)) as [->|Hne].
    + by rewrite lookup_delete_eq in Hm'.
    + rewrite lookup_delete_ne in Hm' by done. naive_solver.
Qed.

Section Application.
Context {C : Type} `{!KeyboardController C}.
Implicit Type m : Menu C.
Implicit Type ms : gmap nat (Menu C).

Lemma props_rerender p m : props (rerender p m) = p.
Proof.
  unfold rerender. cbv zeta. case_bool_decide; [done|].
  by destruct (effect_dom_setup_env (effect_dom_cleanup (render (set_props p m))))
    as (-> & _).
Qed.

Lemma props_show params m : menu_inv m → props (show params m).1 = props m.
Proof.
  intros Hinv. destruct (requestedPosition params) as [p|err] eqn:Hp.
  - by destruct (show_spec params m p Hinv Hp) as (_ & _ & -> & _).
  - by rewrite (show_throws params m err Hp).
Qed.

Lemma props_step a m :
  menu_inv m →
  props (step a m) = match a with ActRerender p => p | _ => props m end.
Proof.
  intros Hinv. destruct a as [params| |e|tid|p|w box|it n]; unfold step.
  - by apply props_show.
  - apply props_hide.
  - rewrite dispatchEvent_spec by done.
    repeat case_match; try done; [|apply props_hide].
    by destruct (handleKeyboard_book e m) as [-> _].
  - unfold fireTimeout. case_bool_decide; [|done]. simpl.
    by destruct (onVisibilityChange (props m)).
  - apply props_rerender.
  - done.
  - done.
Qed.

Lemma menuIds_insert_same ms inst m m' :
  ms !! inst = Some m → props m' = props m →
  menuIds (<[inst := m']> ms) = menuIds ms.
Proof.
  intros Hm Hp. unfold menuIds. rewrite fmap_insert, Hp.
  apply insert_id. by rewrite lookup_fmap, Hm.
Qed.

Lemma hide_args (args : option ShowContextMenuParams) m :
  hide (argsAsEvent <$> args) m = hide None m.
Proof. by destruct args. Qed.

Lemma callHandler_inv h args ms :
  (∀ inst m, ms !! inst = Some m → reachable m) →
  menuIds (callHandler h args ms).1 = menuIds ms
  ∧ ∀ inst m, (callHandler h args ms).1 !! inst = Some m → reachable m.
Proof.
  intros Hreach.
  destruct h as [i|i]; simpl; destruct (ms !! i) as [mi|] eqn:Hi; try done.
  - destruct args as [params|]; [|done]. simpl. split.
    + apply (menuIds_insert_same ms i mi); [done|].
      apply props_show, reachable_inv. by eapply Hreach.
    + intros inst m. destruct (decide (inst = i)) as [->|Hne].
      * rewrite lookup_insert_eq. intros [= <-].
        apply (reachable_step (ActShow params)). by eapply Hreach.
      * rewrite lookup_insert_ne by done. apply Hreach.
  - simpl. rewrite hide_args. split.
    + apply (menuIds_insert_same ms i mi); [done|]. apply props_hide.
    + intros inst m. destruct (decide (inst = i)) as [->|Hne].
      * rewrite lookup_insert_eq. intros [= <-].
        apply (reachable_step ActHideAll). by eapply Hreach.
      * rewrite lookup_insert_ne by done. apply Hreach.
Qed.

Lemma callHandlers_inv hs args ms :
  (∀ inst m, ms !! inst = Some m → reachable m) →
  menuIds (callHandlers hs args ms).1 = menuIds ms
  ∧ ∀ inst m, (callHandlers hs args ms).1 !! inst = Some m → reachable m.
Proof.
  revert ms. induction hs as [|h hs IH]; intros ms Hreach; [done|]. simpl.
  destruct (callHandler_inv h args ms Hreach) as [Hids Hreach'].
  destruct (callHandler h args ms) as [ms' [err|]]; [done|].
  simpl in *. destruct (IH ms' Hreach') as [Hids' Hreach''].
  split; [by rewrite Hids'|done].
Qed.

(** The invariant of the application: the subscriptions are those of
    the mounted menus, and every mounted menu is in a reachable
    state. *)
Lemma app_reachable_inv (app : App C) :
  app_reachable app →
  subscriptions_inv (app_eventList app) (menuIds (app_menus app))
  ∧ ∀ inst m, app_menus app !! inst = Some m → reachable m.
Proof.
  induction 1 as [|app inst p c w box others _ [IHs IHr] Hfresh
                  |app inst _ [IHs IHr]
                  |app inst a _ [IHs IHr]
                  |app ev args _ [IHs IHr]].
  - split; [apply subscriptions_inv_empty|]. intros inst m Hm.
    simpl in Hm. by rewrite lookup_empty in Hm.
  - unfold mountApp; simpl. split.
    + unfold menuIds. rewrite fmap_insert. apply subscriptions_inv_mount; [|done].
      by rewrite lookup_fmap, Hfresh.
    + intros inst' m. destruct (decide (inst' = inst)) as [->|Hne].
      * rewrite lookup_insert_eq. intros [= <-]. apply reachable_mount.
      * rewrite lookup_insert_ne by done. apply IHr.
  - unfold unmountApp. destruct (app_menus app !! inst) as [mi|] eqn:Hi; [|done].
    simpl. split.
    + unfold menuIds. rewrite fmap_delete. apply subscriptions_inv_unmount; [|done].
      by rewrite lookup_fmap, Hi.
    + intros inst' m. destruct (decide (inst' = inst)) as [->|Hne].
      * by rewrite lookup_delete_eq.
      * rewrite lookup_delete_ne by done. apply IHr.
  - unfold stepApp. destruct (app_menus app !! inst) as [mi|] eqn:Hi; [|done].
    simpl. split.
    + pose proof (props_step a mi (reachable_inv mi (IHr inst mi Hi))) as Hprops.
      assert (Hsame : props (step a mi) = props mi →
                subscriptions_inv (app_eventList app)
                  (menuIds (<[inst := step a mi]> (app_menus app)))).
      { intros Hp. by rewrite (menuIds_insert_same _ inst mi). }
      destruct a as [params| |e|tid|p|w box|it n]; try by apply Hsame.
      case_bool_decide as Hdeps.
      * unfold menuIds. rewrite fmap_insert, Hprops.
        destruct Hdeps as [-> _]. rewrite insert_id; [done|].
        by rewrite lookup_fmap, Hi.
      * unfold menuIds. rewrite fmap_insert, Hprops.
        rewrite <- insert_delete_eq.
        apply subscriptions_inv_mount; [by rewrite lookup_delete_eq|].
        apply subscriptions_inv_unmount; [|done].
        by rewrite lookup_fmap, Hi.
    + intros inst' m. destruct (decide (inst' = inst)) as [->|Hne].
      * rewrite lookup_insert_eq. intros [= <-]. apply reachable_step. by eapply IHr.
      * rewrite lookup_insert_ne by done. apply IHr.
  - unfold emitApp. simpl.
    destruct (callHandlers_inv (emit ev (app_eventList app)) args (app_menus app) IHr)
      as [Hids Hreach].
    by rewrite Hids.
Qed.

(** Calling the [show] handlers of distinct instances. *)
Lemma callHandlers_show hs params p ms :
  requestedPosition params = Ok p →
  (∀ h, h ∈ hs → ∃ inst, h = HandlerShow inst) →
  NoDup hs →
  (callHandlers hs (Some params) ms).2 = None
  ∧ ∀ inst, (callHandlers hs (Some params) ms).1 !! inst
            = (λ m, if bool_decide (HandlerShow inst ∈ hs)
                    then (show params m).1 else m) <$> ms !! inst.
Proof.
  intros Hp. revert ms. induction hs as [|h hs IH]; intros ms Hshow Hnd.
  { simpl. split; [done|]. intros inst. by destruct (ms !! inst). }
  apply NoDup_cons in Hnd as [Hfresh Hnd].
  destruct (Hshow h) as [i ->]; [set_solver|].
  assert (Hshow' : ∀ h, h ∈ hs → ∃ inst, h = HandlerShow inst).
  { intros h Hh. apply Hshow. set_solver. }
  simpl. destruct (ms !! i) as [mi|] eqn:Hi.
  - assert (Hok : (show params mi).2 = None) by by rewrite (show_unfold params mi p Hp).
    rewrite Hok.
    destruct (IH (<[i := (show params mi).1]> ms) Hshow' Hnd) as [-> Hlook].
    split; [done|]. intros inst. rewrite Hlook.
    destruct (decide (inst = i)) as [->|Hne].
    + rewrite lookup_insert_eq, Hi. simpl.
      rewrite bool_decide_eq_false_2 by done.
      by rewrite bool_decide_eq_true_2 by set_solver.
    + rewrite lookup_insert_ne by done. destruct (ms !! inst) as [m|]; [|done]. simpl.
      f_equal.
      assert (Hiff : HandlerShow inst ∈ hs ↔ HandlerShow inst ∈ HandlerShow i :: hs).
      { rewrite elem_of_cons. naive_solver. }
      by rewrite (bool_decide_ext _ _ Hiff).
  - destruct (IH ms Hshow' Hnd) as [-> Hlook].
    split; [done|]. intros inst. rewrite Hlook.
    destruct (ms !! inst) as [m|] eqn:Hm; [|done]. simpl.
    f_equal. assert (inst ≠ i) by congruence.
    assert (Hiff : HandlerShow inst ∈ hs ↔ HandlerShow inst ∈ HandlerShow i :: hs).
    { rewrite elem_of_cons. naive_solver. }
    by rewrite (bool_decide_ext _ _ Hiff).
Qed.

(** Calling the [hide] handlers of distinct instances. *)
Lemma callHandlers_hide hs args ms :
  (∀ h, h ∈ hs → ∃ inst, h = HandlerHide inst) →
  NoDup hs →
  (callHandlers hs args ms).2 = None
  ∧ ∀ inst, (callHandlers hs args ms).1 !! inst
            = (λ m, if bool_decide (HandlerHide inst ∈ hs)
                    then hide None m else m) <$> ms !! inst.
Proof.
  revert ms. induction hs as [|h hs IH]; intros ms Hhide Hnd.
  { simpl. split; [done|]. intros inst. by destruct (ms !! inst). }
  apply NoDup_cons in Hnd as [Hfresh Hnd].
  destruct (Hhide h) as [i ->]; [set_solver|].
  assert (Hhide' : ∀ h, h ∈ hs → ∃ inst, h = HandlerHide inst).
  { intros h Hh. apply Hhide. set_solver. }
  simpl. destruct (ms !! i) as [mi|] eqn:Hi.
  - rewrite hide_args.
    destruct (IH (<[i := hide None mi]> ms) Hhide' Hnd) as [-> Hlook].
    split; [done|]. intros inst. rewrite Hlook.
    destruct (decide (inst = i)) as [->|Hne].
    + rewrite lookup_insert_eq, Hi. simpl.
      rewrite bool_decide_eq_false_2 by done.
      by rewrite bool_decide_eq_true_2 by set_solver.
    + rewrite lookup_insert_ne by done. destruct (ms !! inst) as [m|]; [|done]. simpl.
      f_equal.
      assert (Hiff : HandlerHide inst ∈ hs ↔ HandlerHide inst ∈ HandlerHide i :: hs).
      { rewrite elem_of_cons. naive_solver. }
      by rewrite (bool_decide_ext _ _ Hiff).
  - destruct (IH ms Hhide' Hnd) as [-> Hlook].
    split; [done|]. intros inst. rewrite Hlook.
    destruct (ms !! inst) as [m|] eqn:Hm; [|done]. simpl.
    f_equal. assert (inst ≠ i) by congruence.
    assert (Hiff : HandlerHide inst ∈ hs ↔ HandlerHide inst ∈ HandlerHide i :: hs).
    { rewrite elem_of_cons. naive_solver. }
    by rewrite (bool_decide_ext _ _ Hiff).
Qed.

(** X23: the subscriptions at work.  Mounting the menu subscribes its
    [show] to its id and its [hide] to [HIDE_ALL], unmounting
    unsubscribes both.  In every state of the application, emitting a
    key [k] other than that of [HIDE_ALL], with parameters whose
    position can be read, throws nothing and runs [show] on exactly
    the mounted menus with id [k]: each of them is visible afterwards,
    with the trigger event and the props of the call, and every other
    menu is as before.  When no mounted menu has the key of
    [HIDE_ALL] as its id, emitting [HIDE_ALL] runs [hide] on every
    mounted menu: none is visible afterwards. *)
Theorem emit_reaches_menus (app : App C) :
  app_reachable app →
  (∀ evs inst k,
     HandlerShow inst ∈ emit k (subscribe inst k evs)
     ∧ HandlerHide inst ∈ emit HIDE_ALL (subscribe inst k evs))
  ∧ (∀ evs inst k,
     (HandlerShow inst ∉ emit k (unsubscribe inst k evs))
     ∧ (HandlerHide inst ∉ emit HIDE_ALL (unsubscribe inst k evs)))
  ∧ (∀ k params p,
       k ≠ HIDE_ALL →
       requestedPosition params = Ok p →
       (emitApp k (Some params) app).2 = None
       ∧ ∀ inst,
           match app_menus app !! inst with
           | Some m =>
               ∃ m', app_menus (emitApp k (Some params) app).1 !! inst = Some m'
                 ∧ (menuId (props m) = k →
                    state m' = state (show params m).1
                    ∧ visible (state m') = true
                    ∧ triggerEvent (state m') = event params
                    ∧ propsFromTrigger (state m') = params_props params)
                 ∧ (menuId (props m) ≠ k → m' = m)
           | None => app_menus (emitApp k (Some params) app).1 !! inst = None
           end)
  ∧ ((∀ inst m, app_menus app !! inst = Some m → menuId (props m) ≠ HIDE_ALL) →
       (emitApp HIDE_ALL None app).2 = None
       ∧ ∀ inst,
           match app_menus app !! inst with
           | Some m =>
               ∃ m', app_menus (emitApp HIDE_ALL None app).1 !! inst = Some m'
                 ∧ state m' = reducer (state m) hide_payload
                 ∧ visible (state m') = false
           | None => app_menus (emitApp HIDE_ALL None app).1 !! inst = None
           end).
Proof.
  intros Hreach. destruct (app_reachable_inv app Hreach) as [[Hnd Hsubs] Hmenus].
  split_and!.
  - intros evs inst k. unfold subscribe. rewrite !emit_on. naive_solver.
  - intros evs inst k. unfold unsubscribe. rewrite !emit_off. naive_solver.
  - intros k params p Hk Hp.
    assert (Hshows : ∀ h, h ∈ emit k (app_eventList app) → ∃ inst, h = HandlerShow inst).
    { intros h (inst & k' & _ & [[-> _]|[_ ->]])%Hsubs; [by eexists|done]. }
    destruct (callHandlers_show (emit k (app_eventList app)) params p (app_menus app)
                Hp Hshows (Hnd k)) as [Herr Hlook].
    unfold emitApp. simpl. split; [done|]. intros inst. rewrite Hlook.
    destruct (app_menus app !! inst) as [m|] eqn:Hm; [|done]. simpl.
    eexists. split; [done|].
    assert (Hiff : HandlerShow inst ∈ emit k (app_eventList app) ↔ menuId (props m) = k).
    { rewrite Hsubs. unfold menuIds. split.
      - intros (inst' & k' & Hk' & [[[= <-] ->]|[[=] _]]).
        rewrite lookup_fmap, Hm in Hk'. by injection Hk'.
      - intros <-. exists inst, (menuId (props m)).
        rewrite lookup_fmap, Hm. naive_solver. }
    split.
    + intros Hid. rewrite bool_decide_eq_true_2 by by apply Hiff.
      destruct (show_spec params m p (reachable_inv m (Hmenus inst m Hm)) Hp)
        as (_ & -> & _).
      done.
    + intros Hid. by rewrite bool_decide_eq_false_2 by by rewrite Hiff.
  - intros Hnone.
    assert (Hhides : ∀ h, h ∈ emit HIDE_ALL (app_eventList app) →
                          ∃ inst, h = HandlerHide inst).
    { intros h (inst & k' & Hk' & [[_ Hk]|[-> _]])%Hsubs; [|by eexists].
      unfold menuIds in Hk'. rewrite lookup_fmap in Hk'.
      destruct (app_menus app !! inst) as [m|] eqn:Hm; [|done].
      injection Hk' as <-. by destruct (Hnone inst m Hm). }
    destruct (callHandlers_hide (emit HIDE_ALL (app_eventList app)) None (app_menus app)
                Hhides (Hnd HIDE_ALL)) as [Herr Hlook].
    unfold emitApp. simpl. split; [done|]. intros inst. rewrite Hlook.
    destruct (app_menus app !! inst) as [m|] eqn:Hm; [|done]. simpl.
    eexists. split; [done|].
    rewrite bool_decide_eq_true_2.
    + rewrite state_hide_event by done. split; [done|]. apply visible_reducer_hide.
    + apply Hsubs. exists inst, (menuId (props m)). unfold menuIds.
      rewrite lookup_fmap, Hm. naive_solver.
Qed.

End Application.

Lemma emit_reaches_menus_witness :
  (visible ∘ state) <$>
    (app_menus
       (emitApp (KStr "menu") (Some showParams)
          (mountApp 1 sampleProps (mkRecorder false []) (mkWindow 800 600)
             (mkMenuNode 200 100) [] (mkApp ∅ ∅))).1 !! 1%nat)
  = Some true.
Proof.
  pose proof (emit_reaches_menus _
                (app_mount (mkApp ∅ ∅) 1%nat sampleProps (mkRecorder false [])
                   (mkWindow 800 600) (mkMenuNode 200 100) [] app_start eq_refl))
    as (_ & _ & Hshow & _).
  destruct (Hshow (KStr "menu") showParams (mkPosition (JNum 100) (JNum 100)))
    as [_ Hmenu]; [discriminate|reflexivity|].
  specialize (Hmenu 1%nat).
  assert (Hm : app_menus
                 (mountApp 1 sampleProps (mkRecorder false []) (mkWindow 800 600)
                    (mkMenuNode 200 100) [] (mkApp ∅ ∅)) !! 1%nat
               = Some (mount sampleProps (mkRecorder false []) (mkWindow 800 600)
                         (mkMenuNode 200 100) [])) by reflexivity.
  rewrite Hm in Hmenu.
  destruct Hmenu as (m' & -> & Hid & _).
  destruct (Hid eq_refl) as (_ & Hv & _). simpl. by rewrite Hv.
Defined.

(** C3: a menu whose id is the number 0 is subscribed under the key of
    [HIDE_ALL], which is 0 as well.  Emitting its id calls its [show]
    and then its [hide], so it is not visible afterwards; and while it
    is mounted, emitting [HIDE_ALL] calls its [show] without
    parameters first, which throws, so the [hide] of a menu mounted
    after it is not called and that menu stays visible. *)
Theorem menu_id_zero_collision :
  HIDE_ALL = KNum 0
  ∧ menuId zeroProps = KNum 0
  ∧ app_reachable twoMenusApp
  ∧ emit (KNum 0) (app_eventList zeroApp) = [HandlerShow 0%nat; HandlerHide 0%nat]
  ∧ (emitApp (KNum 0) (Some showParams) zeroApp).2 = None
  ∧ (visible ∘ state) <$>
      (app_menus (emitApp (KNum 0) (Some showParams) zeroApp).1 !! 0%nat) = Some false
  ∧ emit HIDE_ALL (app_eventList twoMenusApp)
    = [HandlerShow 0%nat; HandlerHide 0%nat; HandlerHide 1%nat]
  ∧ (visible ∘ state) <$> (app_menus twoMenusApp !! 1%nat) = Some true
  ∧ (emitApp HIDE_ALL None twoMenusApp).2
    = Some (TypeError "Cannot destructure property 'event' of 'undefined'")
  ∧ (visible ∘ state) <$>
      (app_menus (emitApp HIDE_ALL None twoMenusApp).1 !! 1%nat) = Some true.
Proof.
  split_and!; try reflexivity.
  unfold twoMenusApp, zeroApp.
  apply app_emit, app_mount; [|reflexivity].
  apply app_mount; [apply app_start|reflexivity].
Qed.

(** ** An item that becomes disabled while the menu is visible *)

(** C10: an item that was enabled when its ref callback registered its
    node stays in the item tracker when a later [show], on the menu
    still visible, renders it disabled: the ref callback of the
    disabled item leaves the tracker alone and nothing removes the
    entry.  The menu is visible, the item is rendered disabled and a
    click on it only stops the propagation, yet its node 4 is tracked
    with a key matcher that, on the matching key, still calls
    [onClick], with the props of the earlier [show]. *)
Theorem disabled_item_stays_tracked :
  reachable staleMenu
  ∧ visible (state staleMenu) = true
  ∧ renderedItems staleMenu [Some toggledChild]
    = [cloneItem (rightClick 100 100) AnyNull toggledChild]
  ∧ isDisabled (cloneItem (rightClick 100 100) AnyNull toggledChild) = true
  ∧ handleClick (mkItem (cloneItem (rightClick 100 100) AnyNull toggledChild) (Some 4%nat))
      (mouseEvent "click" (JNum 1) (JNum 1) 0 false)
    = ([ItemStopPropagation (mouseEvent "click" (JNum 1) (JNum 1) 0 false)], None)
  ∧ ∃ entry km,
      itemTracker staleMenu !! 4%nat = Some entry
      ∧ entry_keyMatcher entry = Some km
      ∧ (km (keyboardEvent "keydown" "c" false)).1
        = [ItemStopPropagation (keyboardEvent "keydown" "c" false);
           ItemPreventDefault (keyboardEvent "keydown" "c" false);
           ItemFocus 4%nat; ItemHideAllOnBlur 4%nat;
           ItemOnClick
             (mkItemParams (AnyObject 1) AnyUndefined (rightClick 100 100) (AnyObject 2)
                (Some (keyboardEvent "keydown" "c" false)))].
Proof.
  split_and!; try reflexivity.
  - unfold staleMenu, staleRun, run. cbn [foldl]. repeat apply reachable_step.
    apply reachable_mount.
  - eexists _, _. split_and!; reflexivity.
Qed.
